(** * batchCompare: EDI envelope parser, date/time masking and pair comparison

    A shallow embedding of [batchCompareWithMaskedReport.py].  Python
    [str] values are sequences of Unicode code points, exceptions are an
    explicit error result, dictionaries are finite maps. *)

From Stdlib Require Import ZArith NArith Ascii String Strings.Byte.
From stdpp Require Import gmap strings list fin_maps.

Local Open Scope string_scope.
Local Open Scope list_scope.
Local Open Scope nat_scope.

(** ** The fragment of the Python runtime the program relies on *)

Module Py.

(** A character is a code point, a [str] a sequence of them. *)
Abbreviation char := N (only parsing).
Abbreviation str := (list N) (only parsing).

(** String literals of the source, written as Rocq strings. *)
Definition lit (s : string) : str := map N_of_ascii (list_ascii_of_string s).

(** Single character literals. *)
Definition chr (a : ascii) : char := N_of_ascii a.

Inductive exn : Type :=
| ValueError (msg : string)
| IndexError
| UnicodeDecodeError
| RecursionError.

Inductive result (A : Type) : Type :=
| Ok (a : A)
| Raise (e : exn).
Arguments Ok {A} a.
Arguments Raise {A} e.

(** Sequencing: an exception skips the rest of the computation. *)
#[export] Instance result_bind : MBind result := fun A B k m =>
  match m with
  | Ok a => k a
  | Raise e => Raise e
  end.

(** The computation returned rather than raised. *)
Definition succeeds {A} (m : result A) : bool :=
  match m with Ok _ => true | Raise _ => false end.

(** [for x in l: acc = body(acc, x)], stopping at the first exception. *)
Fixpoint for_each {A S} (body : S -> A -> result S) (l : list A) (acc : S)
  : result S :=
  match l with
  | [] => Ok acc
  | x :: l' => body acc x ≫= for_each body l'
  end.

(** Truth value of a sequence: non-empty. *)
Definition truthy {A} (l : list A) : bool :=
  match l with [] => false | _ :: _ => true end.

(** [l[i]], with Python's negative indices and its [IndexError]. *)
Definition getitem {A} (l : list A) (i : Z) : result A :=
  let j := if (i <? 0)%Z then (i + Z.of_nat (length l))%Z else i in
  if (j <? 0)%Z then Raise IndexError
  else match nth_error l (Z.to_nat j) with
       | Some x => Ok x
       | None => Raise IndexError
       end.

Arguments getitem {A} l i%_Z.

(** [l[i] = x] for a non-negative literal index [i]. *)
Definition setitem {A} (l : list A) (i : nat) (x : A) : result (list A) :=
  if decide (i < length l) then Ok (<[i := x]> l) else Raise IndexError.

(** [s.split(sep)] for a one-character separator. *)
Fixpoint split (sep : char) (s : str) : list str :=
  match s with
  | [] => [[]]
  | c :: s' =>
      if decide (c = sep) then [] :: split sep s'
      else match split sep s' with
           | w :: ws => (c :: w) :: ws
           | [] => [[c]]
           end
  end.

(** [sep.join(parts)] for a one-character separator. *)
Fixpoint join (sep : char) (parts : list str) : str :=
  match parts with
  | [] => []
  | [w] => w
  | w :: ws => w ++ sep :: join sep ws
  end.

(** [s.startswith(p)] *)
Fixpoint startswith (p s : str) : bool :=
  match p, s with
  | [], _ => true
  | _ :: _, [] => false
  | a :: p', b :: s' => bool_decide (a = b) && startswith p' s'
  end.

(** [c * n] for a character [c]. *)
Definition times (c : char) (n : nat) : str := repeat c n.

(** [str.isspace] on one character: the white space of the Unicode
    character database. *)
Definition isspace (c : char) : bool :=
  ((9 <=? c) && (c <=? 13) || (28 <=? c) && (c <=? 32)
   || (c =? 133) || (c =? 160) || (c =? 5760)
   || (8192 <=? c) && (c <=? 8202)
   || (c =? 8232) || (c =? 8233) || (c =? 8239) || (c =? 8287)
   || (c =? 12288))%N.

Fixpoint lstrip (s : str) : str :=
  match s with
  | [] => []
  | c :: s' => if isspace c then lstrip s' else s
  end.

(** [s.strip()] *)
Definition strip (s : str) : str := rev (lstrip (rev (lstrip s))).

(** [bytes.decode("utf-8")]: strict UTF-8, no overlong forms, no
    surrogates, nothing above U+10FFFF. *)
Definition continuation (b : N) : bool := ((128 <=? b) && (b <=? 191))%N.

Fixpoint decode_utf8 (bs : list N) : result str :=
  match bs with
  | [] => Ok []
  | b0 :: r0 =>
      if (b0 <? 128)%N then s ← decode_utf8 r0; Ok (b0 :: s)
      else if ((194 <=? b0) && (b0 <=? 223))%N then
        match r0 with
        | b1 :: r1 =>
            if continuation b1
            then s ← decode_utf8 r1;
                 Ok (((b0 - 192) * 64 + (b1 - 128))%N :: s)
            else Raise UnicodeDecodeError
        | _ => Raise UnicodeDecodeError
        end
      else if ((224 <=? b0) && (b0 <=? 239))%N then
        match r0 with
        | b1 :: b2 :: r2 =>
            let lo := (if b0 =? 224 then 160 else 128)%N in
            let hi := (if b0 =? 237 then 159 else 191)%N in
            if ((lo <=? b1) && (b1 <=? hi))%N && continuation b2
            then s ← decode_utf8 r2;
                 Ok (((b0 - 224) * 4096 + (b1 - 128) * 64 + (b2 - 128))%N :: s)
            else Raise UnicodeDecodeError
        | _ => Raise UnicodeDecodeError
        end
      else if ((240 <=? b0) && (b0 <=? 244))%N then
        match r0 with
        | b1 :: b2 :: b3 :: r3 =>
            let lo := (if b0 =? 240 then 144 else 128)%N in
            let hi := (if b0 =? 244 then 143 else 191)%N in
            if ((lo <=? b1) && (b1 <=? hi))%N
               && continuation b2 && continuation b3
            then s ← decode_utf8 r3;
                 Ok (((b0 - 240) * 262144 + (b1 - 128) * 4096
                      + (b2 - 128) * 64 + (b3 - 128))%N :: s)
            else Raise UnicodeDecodeError
        | _ => Raise UnicodeDecodeError
        end
      else Raise UnicodeDecodeError
  end.

(** [re.sub(r'\r?\n', '', s)]: every line feed goes, together with a
    carriage return right before it. *)
Fixpoint remove_newlines (s : str) : str :=
  match s with
  | [] => []
  | c :: s' =>
      if (c =? 10)%N then remove_newlines s'
      else if (c =? 13)%N then
        match s' with
        | d :: s'' =>
            if (d =? 10)%N then remove_newlines s'' else c :: remove_newlines s'
        | [] => [c]
        end
      else c :: remove_newlines s'
  end.

(** [os.path.basename(p)] (POSIX): what follows the last slash. *)
Definition basename (p : str) : str := List.last (split 47%N p) [].

(** [c in s] for a character [c]. *)
Definition contains (c : char) (s : str) : bool := bool_decide (c ∈ s).

(** [d.get(k, '')] *)
Definition get (d : gmap string str) (k : string) : str := default [] (d !! k).

End Py.

Export Py.

(** ** Envelope parser *)

Definition tilde : char := chr "~".
Definition colon : char := chr ":".
Definition hash : char := chr "#".
Definition underscore : char := chr "_".
Definition dot : char := chr ".".

Record separators : Type := {
  data_element : char;
  sub_element : char;
  segment : char
}.

Record parsed : Type := {
  seps : separators;
  isa : gmap string str;
  gs : gmap string str;
  inner_payload : list str
}.

(** The variables the segment loop of [parse_edi] updates. *)
Record parse_state : Type := {
  st_isa : gmap string str;
  st_gs : gmap string str;
  st_payload : list str;
  capture_payload : bool
}.

(** [elements[i] if len(elements) > i else ''] *)
Definition element_or_empty (elements : list str) (i : nat) : result str :=
  if decide (i < length elements) then getitem elements (Z.of_nat i) else Ok [].

(** [elements[i].strip() if len(elements) > i else ''] *)
Definition stripped_or_empty (elements : list str) (i : nat) : result str :=
  if decide (i < length elements)
  then e ← getitem elements (Z.of_nat i); Ok (strip e)
  else Ok [].

Definition isa_dict (elements : list str) : result (gmap string str) :=
  sender_qualifier ← element_or_empty elements 5;
  sender_id ← stripped_or_empty elements 6;
  receiver_qualifier ← element_or_empty elements 7;
  receiver_id ← stripped_or_empty elements 8;
  control_number ← element_or_empty elements 13;
  Ok (<["sender_qualifier" := sender_qualifier]>
      (<["sender_id" := sender_id]>
       (<["receiver_qualifier" := receiver_qualifier]>
        (<["receiver_id" := receiver_id]>
         (<["control_number" := control_number]> ∅))))).

Definition gs_dict (elements : list str) : result (gmap string str) :=
  gs01 ← element_or_empty elements 1;
  gs02 ← element_or_empty elements 2;
  gs03 ← element_or_empty elements 3;
  Ok (<["gs01" := gs01]> (<["gs02" := gs02]> (<["gs03" := gs03]> ∅))).

(** One iteration of [for segment in segments]. *)
Definition parse_segment (data_element_sep : char) (st : parse_state)
    (seg : str) : result parse_state :=
  let elements := split data_element_sep seg in
  if negb (truthy elements) then Ok st
  else
    tag ← getitem elements 0;
    if negb (truthy tag) then Ok st
    else if decide (tag = lit "ISA") then
      d ← isa_dict elements;
      Ok {| st_isa := d; st_gs := st_gs st;
            st_payload := st_payload st;
            capture_payload := capture_payload st |}
    else if decide (tag = lit "GS") then
      d ← gs_dict elements;
      Ok {| st_isa := st_isa st; st_gs := d;
            st_payload := st_payload st;
            capture_payload := capture_payload st |}
    else if decide (tag = lit "ST") then
      Ok {| st_isa := st_isa st; st_gs := st_gs st;
            st_payload := st_payload st; capture_payload := true |}
    else if decide (tag = lit "SE") then
      Ok {| st_isa := st_isa st; st_gs := st_gs st;
            st_payload := st_payload st; capture_payload := false |}
    else if capture_payload st && truthy seg then
      Ok {| st_isa := st_isa st; st_gs := st_gs st;
            st_payload := st_payload st ++ [seg];
            capture_payload := capture_payload st |}
    else Ok st.

Definition parse_init : parse_state :=
  {| st_isa := ∅; st_gs := ∅; st_payload := []; capture_payload := false |}.

(** [next(seg for seg in edi_content.split('~') if seg.startswith('ISA'))],
    with [StopIteration] turned into the [ValueError] of the source. *)
Definition find_isa_segment (edi_content : str) : result str :=
  match List.find (startswith (lit "ISA")) (split tilde edi_content) with
  | Some seg => Ok seg
  | None => Raise (ValueError "No ISA segment found in EDI content")
  end.

Definition parse_edi (edi_content : str) : result parsed :=
  isa_segment ← find_isa_segment edi_content;
  data_element_sep ← getitem isa_segment 3;
  sub_element_sep ←
    (if decide (106 ≤ length isa_segment) then getitem isa_segment (-2)
     else Ok colon);
  let segments := split tilde edi_content in
  st ← for_each (parse_segment data_element_sep) segments parse_init;
  Ok {| seps := {| data_element := data_element_sep;
                   sub_element := sub_element_sep;
                   segment := tilde |};
        isa := st_isa st; gs := st_gs st;
        inner_payload := st_payload st |}.

(** ** Normalizer *)

(** The body of the [try] block of [mask_dates_times]: the masking of the
    elements of one segment, in place. *)
Definition mask_elements (tag : str) (elements : list str)
  : result (list str) :=
  if decide (tag = lit "BEG" ∧ 5 < length elements) then
    e ← getitem elements 5;
    setitem elements 5 (times hash (length e))
  else if decide (tag = lit "DTM") then
    elements ←
      (if decide (2 < length elements) then
         e ← getitem elements 2;
         if truthy e then setitem elements 2 (times hash (length e))
         else Ok elements
       else Ok elements);
    if decide (3 < length elements) then
      e ← getitem elements 3;
      if truthy e then setitem elements 3 (times hash (length e))
      else Ok elements
    else Ok elements
  else Ok elements.

(** One iteration of [for seg in segments]; [except IndexError: continue]
    leaves [masked_segments] as it is. *)
Definition mask_segment (data_element_sep : char) (masked_segments : list str)
    (seg : str) : result (list str) :=
  let elements := split data_element_sep seg in
  if negb (truthy elements) then Ok masked_segments
  else
    tag ← getitem elements 0;
    match mask_elements tag elements with
    | Ok elements => Ok (masked_segments ++ [join data_element_sep elements])
    | Raise IndexError => Ok masked_segments
    | Raise e => Raise e
    end.

Definition mask_dates_times (segments : list str) (data_element_sep : char)
  : result (list str) :=
  for_each (mask_segment data_element_sep) segments [].

(** ** Pair comparator *)

Record report : Type := {
  file1_name : str;
  file2_name : str;
  isa_sender_qualifier : str;
  isa_sender_id : str;
  isa_receiver_qualifier : str;
  isa_receiver_id : str;
  report_gs01 : str;
  report_gs02 : str;
  report_gs03 : str;
  report_isa_match : bool;
  report_gs_match : bool;
  report_masked_match : bool
}.

Record comparison : Type := {
  isa_match : bool;
  gs_match : bool;
  masked_match : bool;
  summary_html : str;
  original_diff : str;
  masked_diff : str;
  report_data : report
}.

Definition isa_fields : list string :=
  ["sender_qualifier"; "sender_id"; "receiver_qualifier"; "receiver_id"].

Definition gs_fields : list string := ["gs01"; "gs02"; "gs03"].

(** [all(d1.get(k,'') == d2.get(k,'') for k in fields)] *)
Definition all_equal (d1 d2 : gmap string str) (fields : list string) : bool :=
  forallb (λ k, bool_decide (get d1 k = get d2 k)) fields.

Definition newline : char := 10%N.

Section Rendering.

(** The two HTML renderers of the source: [generate_summary_html_report],
    which reads the clock, and [generate_diff_html], a wrapper of
    [difflib.HtmlDiff].  Their text is inspected nowhere in the program, so
    they are kept abstract; they are called unguarded, and the library
    behind the second one can raise (its line wrapping recurses once per 80
    columns and runs out of stack on long lines), so a call returns a text
    or raises. *)
Variable generate_summary_html_report :
  str → str → gmap string str → gmap string str →
  gmap string str → gmap string str → bool → bool → bool →
  str → str → str → str → result str.
Variable generate_diff_html : str → str → str → str → result str.

Definition compare_pair (file1_name file2_name file1_content file2_content : str)
  : result comparison :=
  parsed1 ← parse_edi file1_content;
  parsed2 ← parse_edi file2_content;
  let isa_match := all_equal (isa parsed1) (isa parsed2) isa_fields in
  let gs_match := all_equal (gs parsed1) (gs parsed2) gs_fields in
  let sep1 := data_element (seps parsed1) in
  let sep2 := data_element (seps parsed2) in
  m1 ← mask_dates_times (inner_payload parsed1) sep1;
  let masked1 := join newline m1 in
  m2 ← mask_dates_times (inner_payload parsed2) sep2;
  let masked2 := join newline m2 in
  let masked_match := bool_decide (masked1 = masked2) in
  let isa_ctrl1 := get (isa parsed1) "control_number" in
  let isa_ctrl2 := get (isa parsed2) "control_number" in
  let gs_ctrl1 := get (gs parsed1) "gs03" in
  let gs_ctrl2 := get (gs parsed2) "gs03" in
  summary_html ←
    generate_summary_html_report file1_name file2_name
      (isa parsed1) (isa parsed2) (gs parsed1) (gs parsed2)
      isa_match gs_match masked_match
      isa_ctrl1 isa_ctrl2 gs_ctrl1 gs_ctrl2;
  let report_data :=
    {| file1_name := file1_name;
       file2_name := file2_name;
       isa_sender_qualifier := get (isa parsed1) "sender_qualifier";
       isa_sender_id := get (isa parsed1) "sender_id";
       isa_receiver_qualifier := get (isa parsed1) "receiver_qualifier";
       isa_receiver_id := get (isa parsed1) "receiver_id";
       report_gs01 := get (gs parsed1) "gs01";
       report_gs02 := get (gs parsed1) "gs02";
       report_gs03 := get (gs parsed1) "gs03";
       report_isa_match := isa_match;
       report_gs_match := gs_match;
       report_masked_match := masked_match |} in
  original_diff ←
    generate_diff_html file1_content file2_content file1_name file2_name;
  masked_diff ←
    generate_diff_html masked1 masked2
      (file1_name ++ lit " (masked)") (file2_name ++ lit " (masked)");
  Ok {| isa_match := isa_match;
        gs_match := gs_match;
        masked_match := masked_match;
        summary_html := summary_html;
        original_diff := original_diff;
        masked_diff := masked_diff;
        report_data := report_data |}.

(** ** Batch folder processing *)

(** An uploaded file: its name and its bytes. *)
Record uploaded_file : Type := {
  name : str;
  getvalue : list byte
}.

Record batch_entry : Type := {
  entry_summary_html : str;
  entry_original_diff : str;
  entry_masked_diff : str;
  from_name : str;
  to_name : str
}.

(** The two variables the batch loop updates. *)
Record batch_state : Type := {
  results : gmap str batch_entry;
  all_report_data : list report
}.

(** [{os.path.basename(f.name): f for f in to_files}]: a later file
    replaces an earlier one of the same name. *)
Definition to_files_map (to_files : list uploaded_file)
  : gmap str uploaded_file :=
  foldl (λ m f, <[basename (name f) := f]> m) ∅ to_files.

(** [re.sub(r'\r?\n', '', f.getvalue().decode("utf-8"))] *)
Definition read_content (f : uploaded_file) : result str :=
  text ← decode_utf8 (map Byte.to_N (getvalue f));
  Ok (remove_newlines text).

(** One iteration of [for from_file in from_files]. *)
Definition batch_step (to_map : gmap str uploaded_file) (st : batch_state)
    (from_file : uploaded_file) : result batch_state :=
  let filename := basename (name from_file) in
  if negb (contains underscore filename) then Ok st
  else
    let parts := split underscore filename in
    if decide (length parts < 2) then Ok st
    else
      last_part ← getitem parts (-1);
      uuid ← getitem (split dot last_part) 0;
      first_part ← getitem parts 0;
      let matching_to_name := first_part ++ lit "bla_" ++ uuid ++ lit ".txt" in
      match to_map !! matching_to_name with
      | None => Ok st
      | Some to_file =>
          from_content ← read_content from_file;
          to_content ← read_content to_file;
          compare ← compare_pair filename matching_to_name
                      from_content to_content;
          Ok {| results :=
                  <[uuid := {| entry_summary_html := summary_html compare;
                               entry_original_diff := original_diff compare;
                               entry_masked_diff := masked_diff compare;
                               from_name := filename;
                               to_name := matching_to_name |}]> (results st);
                all_report_data :=
                  all_report_data st ++ [report_data compare] |}
      end.

Definition batch_init : batch_state :=
  {| results := ∅; all_report_data := [] |}.

(** What the batch branch of the page ends with: nothing to do until both
    uploads are there, the warning when no pair matched, or the results. *)
Inductive batch_outcome : Type :=
| Waiting
| NoMatchingPairs
| Processed (st : batch_state).

Definition batch_folder_processing (from_files to_files : list uploaded_file)
  : result batch_outcome :=
  if truthy from_files && truthy to_files then
    st ← for_each (batch_step (to_files_map to_files)) from_files batch_init;
    if decide (results st = ∅) then Ok NoMatchingPairs
    else Ok (Processed st)
  else Ok Waiting.

End Rendering.

(** ** The normalizer in closed form *)

(** A run of [#] as long as the element it replaces. *)
Definition masked (e : str) : str := times hash (length e).

(** What the [try] block computes: an empty element masks to itself, and
    an index past the end is left alone, so the guards of the source fold
    into [alter]. *)
Definition mask_pure (tag : str) (elements : list str) : list str :=
  if decide (tag = lit "BEG") then alter masked 5 elements
  else if decide (tag = lit "DTM") then alter masked 3 (alter masked 2 elements)
  else elements.

Definition mask_one (data_element_sep : char) (seg : str) : str :=
  let elements := split data_element_sep seg in
  join data_element_sep (mask_pure (hd [] elements) elements).

(** ** The normalizer as the specification words it *)

(** Element [i] replaced by a run of [#] of its length. *)
Definition blank (i : nat) (elements : list str) : list str :=
  match elements !! i with
  | Some e => <[i := times hash (length e)]> elements
  | None => elements
  end.

(** The same, only for an element that is present and non-empty. *)
Definition blank_nonempty (i : nat) (elements : list str) : list str :=
  match elements !! i with
  | Some ((_ :: _) as e) => <[i := times hash (length e)]> elements
  | _ => elements
  end.

Definition normalize_segment (element_delimiter : char) (seg : str) : str :=
  let elements := split element_delimiter seg in
  let tag := hd [] elements in
  if decide (tag = lit "BEG" ∧ 5 < length elements) then
    join element_delimiter (blank 5 elements)
  else if decide (tag = lit "DTM") then
    join element_delimiter (blank_nonempty 3 (blank_nonempty 2 elements))
  else seg.

Definition normalize (payload : list str) (element_delimiter : char)
  : list str :=
  map (normalize_segment element_delimiter) payload.

(** ** The renderer calls of the pair comparator *)

(** The payload of a parsed document, normalized with the document's own
    element delimiter and joined into one block with newlines. *)
Definition masked_text (p : parsed) : str :=
  join newline (normalize (inner_payload p) (data_element (seps p))).

Section RendererCalls.

Variable generate_summary_html_report :
  str → str → gmap string str → gmap string str →
  gmap string str → gmap string str → bool → bool → bool →
  str → str → str → str → result str.
Variable generate_diff_html : str → str → str → str → result str.

(** The call of the summary renderer on two parsed documents. *)
Definition summary_call (file1_name file2_name : str) (p1 p2 : parsed)
  : result str :=
  generate_summary_html_report file1_name file2_name
    (isa p1) (isa p2) (gs p1) (gs p2)
    (all_equal (isa p1) (isa p2) isa_fields)
    (all_equal (gs p1) (gs p2) gs_fields)
    (bool_decide (masked_text p1 = masked_text p2))
    (get (isa p1) "control_number") (get (isa p2) "control_number")
    (get (gs p1) "gs03") (get (gs p2) "gs03").

(** The two calls of the diff renderer: on the texts as given, then on
    the masked payloads. *)
Definition original_diff_call
    (file1_name file2_name file1_content file2_content : str) : result str :=
  generate_diff_html file1_content file2_content file1_name file2_name.

Definition masked_diff_call (file1_name file2_name : str) (p1 p2 : parsed)
  : result str :=
  generate_diff_html (masked_text p1) (masked_text p2)
    (file1_name ++ lit " (masked)") (file2_name ++ lit " (masked)").

End RendererCalls.

(** ** The envelope parser as the specification words it *)

(** The error of a document without an ISA segment. *)
Definition MissingEnvelopeError : exn :=
  ValueError "No ISA segment found in EDI content".

(** [seg] is the first [~]-separated segment of [text] that begins with
    [ISA]. *)
Definition first_isa_segment (text : str) (seg : str) : Prop :=
  ∃ before after,
    split tilde text = before ++ seg :: after
    ∧ Forall (λ s, ¬ lit "ISA" `prefix_of` s) before
    ∧ lit "ISA" `prefix_of` seg.

(** No segment of [text] begins with [ISA]. *)
Definition no_isa_segment (text : str) : Prop :=
  Forall (λ s, ¬ lit "ISA" `prefix_of` s) (split tilde text).

(** The first element of a segment. *)
Definition first_element (delim : char) (seg : str) : str :=
  hd [] (split delim seg).

(** The segments met while capture is on: [ST] turns capture on, [SE]
    turns it off, neither is kept, and every other segment is kept exactly
    when capture is on. *)
Fixpoint captured_while_on (delim : char) (capture : bool) (segs : list str)
  : list str :=
  match segs with
  | [] => []
  | seg :: rest =>
      let tag := first_element delim seg in
      if decide (tag = lit "ST") then captured_while_on delim true rest
      else if decide (tag = lit "SE") then captured_while_on delim false rest
      else if capture then seg :: captured_while_on delim capture rest
      else captured_while_on delim capture rest
  end.

(** The same, but a segment whose first element is empty, [ISA] or [GS]
    is never kept. *)
Fixpoint captured_payload (delim : char) (capture : bool) (segs : list str)
  : list str :=
  match segs with
  | [] => []
  | seg :: rest =>
      let tag := first_element delim seg in
      if decide (tag = lit "ST") then captured_payload delim true rest
      else if decide (tag = lit "SE") then captured_payload delim false rest
      else if capture && truthy tag
              && bool_decide (tag ≠ lit "ISA" ∧ tag ≠ lit "GS")
      then seg :: captured_payload delim capture rest
      else captured_payload delim capture rest
  end.

(** ** The filename convention of batch mode *)

Definition filename (f : uploaded_file) : str := basename (name f).

(** The last [_]-delimited part of the filename, up to its first dot. *)
Definition pairing_key (filename : str) : str :=
  hd [] (split dot (List.last (split underscore filename) [])).

(** The first [_]-delimited part, then [bla_], the key and [.txt]. *)
Definition target_name (filename : str) : str :=
  hd [] (split underscore filename)
  ++ lit "bla_" ++ pairing_key filename ++ lit ".txt".

(** A source file takes part in the batch: its filename has a [_] and the
    target it names was uploaded. *)
Definition matched (to_map : gmap (list N) uploaded_file) (f : uploaded_file)
  : Prop :=
  contains underscore (filename f) = true
  ∧ is_Some (to_map !! target_name (filename f)).

#[export] Instance matched_dec to_map f : Decision (matched to_map f).
Proof. unfold matched. apply _. Defined.

(** What a matched pair adds to the state of the batch. *)
Definition record_pair (st : batch_state) (fname : list N) (c : comparison)
  : batch_state :=
  {| results :=
       <[pairing_key fname :=
           {| entry_summary_html := summary_html c;
              entry_original_diff := original_diff c;
              entry_masked_diff := masked_diff c;
              from_name := fname;
              to_name := target_name fname |}]> (results st);
     all_report_data := all_report_data st ++ [report_data c] |}.

(** What holds of the state after the files [done_files] are through. *)
Definition batch_invariant (to_map : gmap (list N) uploaded_file)
    (done_files : list uploaded_file) (st : batch_state) : Prop :=
  map file1_name (all_report_data st)
  = map filename (filter (matched to_map) done_files)
  ∧ (∀ key e, results st !! key = Some e →
       ∃ f, f ∈ done_files ∧ matched to_map f
         ∧ key = pairing_key (filename f)
         ∧ from_name e = filename f
         ∧ to_name e = target_name (filename f))
  ∧ (∀ f, f ∈ done_files → matched to_map f →
       is_Some (results st !! pairing_key (filename f))).

(** ** Sample documents *)

(** A purchase order with a full-width ISA segment. *)
Definition sample_order_text : string :=
  "ISA*00*          *00*          *ZZ*SENDER         *ZZ*RECEIVER       *240101*1200*U*00401*000000001*0*P*>~GS*PO*SENDER*RECEIVER*20240101*1200*1*X*004010~ST*850*0001~BEG*00*SA*PO1**20240101~DTM*011*20240101~SE*4*0001~GE*1*1~IEA*1*000000001~".
Definition sample_order : str := lit sample_order_text.

(** The same order sent a day later. *)
Definition sample_order_next_day_text : string :=
  "ISA*00*          *00*          *ZZ*SENDER         *ZZ*RECEIVER       *240102*0900*U*00401*000000002*0*P*>~GS*PO*SENDER*RECEIVER*20240102*0900*1*X*004010~ST*850*0001~BEG*00*SA*PO1**20240102~DTM*011*20240102~SE*4*0001~GE*1*1~IEA*1*000000002~".
Definition sample_order_next_day : str := lit sample_order_next_day_text.

(** A document whose ISA segment is the bare tag. *)
Definition bare_isa : str := lit "ISA~GS*PO~ST*850~N1*BY~SE*2~".

(** A document without an envelope. *)
Definition no_envelope : str := lit "GS*PO*A*B~ST*850*0001~N1*BY~SE*2*0001~".

(** A functional group header inside a transaction set. *)
Definition group_inside_transaction : str :=
  lit "ISA*00~ST*850*0001~GS*PO*A*B~N1*BY~SE*3*0001~".

(** Two documents with the same headers and the same payload text, the
    first delimited by [*], the second by [|]. *)
Definition star_delimited : str := lit "ISA*00~ST*850~DTM*011*20240101~SE*2~".
Definition bar_delimited : str := lit "ISA|00~ST|850~DTM*011*20240101~SE|2~".

(** Renderers that return an empty text, to run the comparator on the
    samples, and a diff renderer that runs out of stack. *)
Definition no_summary_html
  : str → str → gmap string str → gmap string str →
    gmap string str → gmap string str → bool → bool → bool →
    str → str → str → str → result str :=
  λ _ _ _ _ _ _ _ _ _ _ _ _ _, Ok [].
Definition no_diff_html : str → str → str → str → result str :=
  λ _ _ _ _, Ok [].
Definition failing_diff_html : str → str → str → str → result str :=
  λ _ _ _ _, Raise RecursionError.

(** The uploads of a small batch. *)
Definition sample_source : uploaded_file :=
  {| name := lit "order_aaa111.txt";
     getvalue := list_byte_of_string sample_order_text |}.
Definition sample_target : uploaded_file :=
  {| name := lit "orderbla_aaa111.txt";
     getvalue := list_byte_of_string sample_order_next_day_text |}.
Definition sample_unpaired : uploaded_file :=
  {| name := lit "noUnderscore.txt";
     getvalue := list_byte_of_string sample_order_text |}.
Definition sample_orphan : uploaded_file :=
  {| name := lit "invoice_bbb222.txt";
     getvalue := list_byte_of_string sample_order_text |}.

(** ** Further notions used to describe the program *)

(** [seg] is the last of the segments [segs] whose first element is [tag]. *)
Definition last_with_tag (delim : char) (tag : str) (segs : list str)
    (seg : str) : Prop :=
  ∃ before after,
    segs = before ++ seg :: after
    ∧ first_element delim seg = tag
    ∧ Forall (λ s, first_element delim s ≠ tag) after.

(** The header dictionary read off the elements of an ISA segment. *)
Definition isa_of (elements : list str) : gmap string str :=
  <["sender_qualifier" := default [] (elements !! 5)]>
  (<["sender_id" := strip (default [] (elements !! 6))]>
   (<["receiver_qualifier" := default [] (elements !! 7)]>
    (<["receiver_id" := strip (default [] (elements !! 8))]>
     (<["control_number" := default [] (elements !! 13)]> ∅)))).

(** The group dictionary read off the elements of a GS segment. *)
Definition gs_of (elements : list str) : gmap string str :=
  <["gs01" := default [] (elements !! 1)]>
  (<["gs02" := default [] (elements !! 2)]>
   (<["gs03" := default [] (elements !! 3)]> ∅)).

(** A text neither begins nor ends with white space. *)
Definition trimmed (s : str) : Prop :=
  (∀ c, head s = Some c → isspace c = false)
  ∧ (∀ c, last s = Some c → isspace c = false).

(** [seg'] is [seg] with some of its characters replaced by [#]. *)
Definition hidden (seg seg' : str) : Prop :=
  Forall2 (λ c c', c' = c ∨ c' = hash) seg seg'.

(** The element positions the normalizer masks in a segment of a tag. *)
Definition masked_positions (tag : str) : list nat :=
  if decide (tag = lit "BEG") then [5]
  else if decide (tag = lit "DTM") then [2; 3]
  else [].

(** A document with no transaction set. *)
Definition no_transaction : str := lit "ISA*00~GS*PO*A*B~N1*BY~SE*1~".

(** ** Single file compare *)

Section SingleFile.

Variable generate_summary_html_report :
  str → str → gmap string str → gmap string str →
  gmap string str → gmap string str → bool → bool → bool →
  str → str → str → str → result str.
Variable generate_diff_html : str → str → str → str → result str.

(** The comparison of the single-file page, once both files are uploaded:
    the names are used as uploaded. *)
Definition single_file_compare (file1 file2 : uploaded_file)
  : result comparison :=
  file1_content ← read_content file1;
  file2_content ← read_content file2;
  compare_pair generate_summary_html_report generate_diff_html
    (name file1) (name file2) file1_content file2_content.

End SingleFile.

(** A byte of plain text: ASCII, and neither line feed nor carriage
    return. *)
Definition plain (b : byte) : Prop :=
  (Byte.to_N b < 128)%N ∧ Byte.to_N b ≠ 10%N ∧ Byte.to_N b ≠ 13%N.

#[export] Instance plain_dec b : Decision (plain b).
Proof. unfold plain. apply _. Defined.

#[export] Instance byte_eq_decision : EqDecision byte := Byte.byte_eq_dec.

(** The two ways a line ends. *)
Definition line_end (eol : list byte) : Prop :=
  eol = [x0a] ∨ eol = [x0d; x0a].

#[export] Instance line_end_dec eol : Decision (line_end eol).
Proof. unfold line_end. apply _. Defined.

(** The bytes of a file written one line at a time, each line followed by
    its own end-of-line bytes. *)
Definition lines_with (lines : list (list byte * list byte)) : list byte :=
  concat (map (λ l, l.1 ++ l.2) lines).

(** The text of the lines alone. *)
Definition lines_text (lines : list (list byte * list byte)) : str :=
  map Byte.to_N (concat (map fst lines)).

(** The sample order, one segment per line, written with Windows line
    ends, and with both kinds of line end mixed. *)
Definition sample_order_segments : list (list byte) :=
  map (λ seg, list_byte_of_string seg)
    ["ISA*00~"; "ST*850*0001~"; "DTM*011*20240101~"; "SE*2*0001~"].
Definition sample_windows_lines : list (list byte * list byte) :=
  map (λ l, (l, [x0d; x0a])) sample_order_segments.
Definition sample_mixed_lines : list (list byte * list byte) :=
  zip sample_order_segments [[x0a]; [x0d; x0a]; [x0d; x0a]; [x0a]].

Definition sample_second_source : uploaded_file :=
  {| name := lit "order_v2_aaa111.edi";
     getvalue := list_byte_of_string sample_order_next_day_text |}.

(** * Properties *)

(** ** Sequencing and indexing *)

Section Runtime.
Context {A : Type}.
Implicit Types (l : list A) (i : nat).

Lemma getitem_lookup l i :
  getitem l (Z.of_nat i)
  = match l !! i with Some x => Ok x | None => Raise IndexError end.
Proof.
  unfold getitem.
  destruct (Z.ltb_spec (Z.of_nat i) 0); [lia|].
  destruct (Z.ltb_spec (Z.of_nat i) 0); [lia|].
  rewrite Nat2Z.id. clear. revert i.
  induction l as [|x l IH]; intros [|i]; simpl; auto.
Qed.

Lemma getitem_ok l i x : l !! i = Some x → getitem l (Z.of_nat i) = Ok x.
Proof. intros H. by rewrite getitem_lookup, H. Qed.

(** A negative index counts from the end. *)
Lemma getitem_from_end l (k : nat) x :
  0 < k ≤ length l → l !! (length l - k) = Some x →
  getitem l (- Z.of_nat k) = Ok x.
Proof.
  intros Hk Hx. unfold getitem.
  destruct (Z.ltb_spec (- Z.of_nat k) 0); [|lia].
  destruct (Z.ltb_spec (- Z.of_nat k + Z.of_nat (length l)) 0); [lia|].
  replace (Z.to_nat (- Z.of_nat k + Z.of_nat (length l))) with (length l - k)
    by lia.
  revert Hx. generalize (length l - k). clear. intros n. revert n.
  induction l as [|y l IH]; intros [|n]; simpl; intros; simplify_eq; auto.
Qed.

Lemma setitem_ok l i x : i < length l → setitem l i x = Ok (<[i := x]> l).
Proof. intros H. unfold setitem. by rewrite decide_True. Qed.

End Runtime.

Lemma succeeds_Ok {A} (m : result A) : succeeds m = true → ∃ a, m = Ok a.
Proof. destruct m; [by eexists|done]. Qed.

Lemma for_each_app {A S} (body : S → A → result S) l1 l2 acc :
  for_each body (l1 ++ l2) acc = for_each body l1 acc ≫= for_each body l2.
Proof.
  revert acc. induction l1 as [|x l1 IH]; intros acc; simpl; [done|].
  destruct (body acc x); simpl; auto.
Qed.

(** A loop whose body never raises is a fold. *)
Lemma for_each_pure {A S} (body : S → A → result S) (f : S → A → S) l acc :
  (∀ s x, body s x = Ok (f s x)) → for_each body l acc = Ok (foldl f acc l).
Proof.
  intros Hf. revert acc. induction l as [|x l IH]; intros acc; simpl; [done|].
  rewrite Hf. simpl. apply IH.
Qed.

(** ** Splitting and joining *)

Section SplitJoin.
Variable sep : char.
Implicit Types (s w : str) (parts : list str).

Lemma split_nonempty s : split sep s ≠ [].
Proof. destruct s as [|c s]; simpl; [done|]. repeat case_match; done. Qed.

Lemma split_cons_sep s : split sep (sep :: s) = [] :: split sep s.
Proof. simpl. by rewrite decide_True. Qed.

(** No element of a split contains the separator. *)
Lemma split_free s : Forall (λ w, sep ∉ w) (split sep s).
Proof.
  induction s as [|c s IH]; simpl.
  - repeat constructor. apply not_elem_of_nil.
  - case_decide as Hc.
    + constructor; [apply not_elem_of_nil | done].
    + destruct (split sep s) as [|w ws]; inversion IH; subst.
      * repeat constructor. by intros [->| ?%not_elem_of_nil]%elem_of_cons.
      * constructor; [|done]. by intros [->|?]%elem_of_cons.
Qed.

(** Round trip: joining what was split gives the text back. *)
Lemma join_split s : join sep (split sep s) = s.
Proof.
  induction s as [|c s IH]; simpl; [done|].
  case_decide as Hc.
  - subst c. pose proof (split_nonempty s).
    destruct (split sep s); [done|]. simpl in *. by rewrite IH.
  - destruct (split sep s) as [|w [|w' ws]]; simpl in *; by subst.
Qed.

Lemma split_app_sep s1 s2 :
  split sep (s1 ++ sep :: s2) = split sep s1 ++ split sep s2.
Proof.
  induction s1 as [|c s1 IH]; simpl.
  - by rewrite decide_True.
  - case_decide; [by rewrite IH|].
    rewrite IH. pose proof (split_nonempty s1).
    by destruct (split sep s1).
Qed.

Lemma split_free_id w : sep ∉ w → split sep w = [w].
Proof.
  induction w as [|c w IH]; intros Hw; simpl; [done|].
  rewrite decide_False by set_solver. rewrite IH by set_solver. done.
Qed.

Lemma split_join_cons w parts :
  parts ≠ [] →
  split sep (join sep (w :: parts)) = split sep w ++ split sep (join sep parts).
Proof. destruct parts; [done|]. intros _. apply split_app_sep. Qed.

(** Splitting a joined list splits each of its parts. *)
Lemma split_join_concat parts :
  parts ≠ [] → split sep (join sep parts) = concat (map (split sep) parts).
Proof.
  induction parts as [|w parts IH]; [done|]. intros _.
  destruct (decide (parts = [])) as [->|Hne].
  - simpl. by rewrite app_nil_r.
  - rewrite split_join_cons by done. simpl. by rewrite IH.
Qed.

Lemma split_join parts :
  parts ≠ [] → Forall (λ w, sep ∉ w) parts →
  split sep (join sep parts) = parts.
Proof.
  intros Hne Hfree. rewrite split_join_concat by done. clear Hne.
  induction Hfree as [|w parts Hw _ IH]; simpl; [done|].
  by rewrite split_free_id, IH.
Qed.

End SplitJoin.

(** ** The masking pass never raises *)

Lemma masked_length e : length (masked e) = length e.
Proof. unfold masked, times. apply repeat_length. Qed.

Lemma masked_masked e : masked (masked e) = masked e.
Proof. unfold masked at 1. by rewrite masked_length. Qed.

Lemma insert_as_alter {A} (f : A → A) (l : list A) i x :
  l !! i = Some x → <[i := f x]> l = alter f i l.
Proof.
  revert i. induction l as [|y l IH]; intros [|i] H; simpl in *;
    simplify_eq; [done|]. f_equal. by apply IH.
Qed.

Lemma alter_fixed {A} (f : A → A) (l : list A) i :
  (∀ x, l !! i = Some x → f x = x) → alter f i l = l.
Proof.
  revert i. induction l as [|y l IH]; intros [|i] H; simpl in *; [done..| |].
  - f_equal. by apply H.
  - f_equal. by apply IH.
Qed.

(** [if len(elements) > i and elements[i]: elements[i] = "#" * len(...)] *)
Lemma mask_guarded (elements : list str) (i : nat) :
  (if decide (i < length elements) then
     e ← getitem elements (Z.of_nat i);
     if truthy e then setitem elements i (times hash (length e))
     else Ok elements
   else Ok elements)
  = Ok (alter masked i elements).
Proof.
  case_decide as Hi.
  - destruct (lookup_lt_is_Some_2 elements i Hi) as [e He].
    rewrite (getitem_ok _ _ _ He). simpl.
    destruct e as [|c e]; simpl.
    + f_equal. symmetry. apply alter_fixed. intros x Hx. by simplify_eq.
    + rewrite setitem_ok by done. f_equal.
      by apply (insert_as_alter masked) in He.
  - f_equal. symmetry. apply alter_fixed. intros x Hx.
    apply lookup_lt_Some in Hx. lia.
Qed.

Lemma mask_elements_ok tag elements :
  mask_elements tag elements = Ok (mask_pure tag elements).
Proof.
  unfold mask_elements, mask_pure.
  destruct (decide (tag = lit "BEG")) as [->|Hbeg].
  - case_decide as H5.
    + destruct H5 as [_ H5].
      destruct (lookup_lt_is_Some_2 elements 5 H5) as [e He].
      change 5%Z with (Z.of_nat 5). rewrite (getitem_ok _ _ _ He). simpl.
      rewrite setitem_ok by done. f_equal.
      by apply (insert_as_alter masked) in He.
    + rewrite decide_False by done. f_equal. symmetry.
      apply alter_fixed. intros x Hx. apply lookup_lt_Some in Hx.
      destruct H5. split; [done|lia].
  - rewrite decide_False by tauto.
    case_decide; [|done].
    change 2%Z with (Z.of_nat 2). change 3%Z with (Z.of_nat 3).
    rewrite (mask_guarded elements 2). simpl.
    apply (mask_guarded _ 3).
Qed.

Lemma mask_segment_ok sep acc seg :
  mask_segment sep acc seg = Ok (acc ++ [mask_one sep seg]).
Proof.
  unfold mask_segment, mask_one.
  pose proof (split_nonempty sep seg) as Hne.
  destruct (split sep seg) as [|tag rest] eqn:Hsplit; [done|]. simpl.
  change (getitem (tag :: rest) 0) with (Ok (A:=str) tag). simpl.
  by rewrite mask_elements_ok.
Qed.

Lemma foldl_snoc_map {A B} (g : A → B) (l : list A) (acc : list B) :
  foldl (λ acc x, acc ++ [g x]) acc l = acc ++ map g l.
Proof.
  revert acc. induction l as [|x l IH]; intros acc; simpl.
  - by rewrite app_nil_r.
  - rewrite IH. by rewrite <- app_assoc.
Qed.

Lemma mask_dates_times_ok segments sep :
  mask_dates_times segments sep = Ok (map (mask_one sep) segments).
Proof.
  unfold mask_dates_times.
  rewrite (for_each_pure _ (λ acc seg, acc ++ [mask_one sep seg]))
    by (intros; apply mask_segment_ok).
  by rewrite foldl_snoc_map.
Qed.

(** ** The closed form agrees with the specification's wording *)

Lemma blank_alter elements i :
  blank i elements = alter masked i elements.
Proof.
  unfold blank. destruct (elements !! i) as [e|] eqn:He.
  - by apply (insert_as_alter masked).
  - symmetry. apply alter_fixed. intros x Hx. congruence.
Qed.

Lemma blank_nonempty_alter elements i :
  blank_nonempty i elements = alter masked i elements.
Proof.
  unfold blank_nonempty. destruct (elements !! i) as [[|c e]|] eqn:He.
  - symmetry. apply alter_fixed. intros x Hx. by simplify_eq.
  - by apply (insert_as_alter masked).
  - symmetry. apply alter_fixed. intros x Hx. congruence.
Qed.

Lemma normalize_segment_mask_one sep seg :
  normalize_segment sep seg = mask_one sep seg.
Proof.
  unfold normalize_segment, mask_one, mask_pure.
  set (elements := split sep seg).
  destruct (decide (hd [] elements = lit "BEG")) as [Hbeg|Hbeg].
  - case_decide as H5.
    + by rewrite blank_alter.
    + rewrite Hbeg. rewrite decide_False by done.
      rewrite alter_fixed; [by unfold elements; rewrite join_split|].
      intros x Hx. apply lookup_lt_Some in Hx. destruct H5. split; [done|lia].
  - rewrite decide_False by tauto.
    case_decide.
    + by rewrite !blank_nonempty_alter.
    + by unfold elements; rewrite join_split.
Qed.

(** ** Masking twice *)

Lemma mask_pure_hd tag elements :
  hd [] (mask_pure tag elements) = hd [] elements.
Proof.
  unfold mask_pure. repeat case_decide; try done.
  - by destruct elements.
  - by destruct elements as [|? [|? ?]].
Qed.

Lemma mask_pure_length tag elements :
  length (mask_pure tag elements) = length elements.
Proof.
  unfold mask_pure. repeat case_decide; by rewrite ?length_alter.
Qed.

Lemma alter_masked_twice (l : list str) i :
  alter masked i (alter masked i l) = alter masked i l.
Proof.
  rewrite list_alter_alter_eq. apply list_alter_ext; [|done].
  intros x _. apply masked_masked.
Qed.

Lemma mask_pure_idem tag elements :
  mask_pure tag (mask_pure tag elements) = mask_pure tag elements.
Proof.
  unfold mask_pure. repeat case_decide; try done.
  - apply alter_masked_twice.
  - rewrite (list_alter_alter_ne masked masked _ 2 3) by done.
    by rewrite !alter_masked_twice.
Qed.

Lemma masked_free sep e : sep ≠ hash → sep ∉ masked e.
Proof.
  intros Hsep Hin. unfold masked, times in Hin.
  apply list_elem_of_In, repeat_spec in Hin. done.
Qed.

Lemma mask_pure_free sep tag elements :
  sep ≠ hash →
  Forall (λ w, sep ∉ w) elements →
  Forall (λ w, sep ∉ w) (mask_pure tag elements).
Proof.
  intros Hsep Hfree. unfold mask_pure.
  repeat case_decide; try done;
    repeat (apply Forall_alter; [|intros; by apply masked_free]); done.
Qed.

(** With [#] itself as the delimiter a masked element reads back as a run
    of empty elements. *)
Lemma split_run_head sep n rest :
  ∃ ws, split sep (join sep (repeat sep n :: rest)) = [] :: ws.
Proof.
  destruct n as [|n].
  - destruct rest as [|w rest]; simpl; [by eexists|].
    rewrite decide_True by done. by eexists.
  - destruct rest as [|w rest]; simpl; rewrite decide_True by done;
      by eexists.
Qed.

Lemma split_run_second sep n rest :
  (rest = [] ∨ ∃ n' rest', rest = repeat sep n' :: rest') →
  ∃ ws, split sep (join sep (repeat sep n :: rest)) = [] :: ws
        ∧ (ws = [] ∨ ∃ ws', ws = [] :: ws').
Proof.
  intros Hrest. destruct n as [|n].
  - destruct Hrest as [->|(n' & rest' & ->)].
    + simpl. eexists; split; [done|by left].
    + destruct (split_run_head sep n' rest') as [ws Hws].
      change (join sep (repeat sep 0 :: repeat sep n' :: rest'))
        with (sep :: join sep (repeat sep n' :: rest')).
      rewrite split_cons_sep, Hws. eexists; split; [done|]. right; by eexists.
  - destruct (split_run_head sep n rest) as [ws Hws].
    replace (join sep (repeat sep (S n) :: rest))
      with (sep :: join sep (repeat sep n :: rest))
      by (by destruct rest).
    rewrite split_cons_sep, Hws. eexists; split; [done|]. right; by eexists.
Qed.

Lemma split_join_free_cons sep w parts :
  sep ∉ w → parts ≠ [] →
  split sep (join sep (w :: parts)) = w :: split sep (join sep parts).
Proof.
  intros Hw Hne. rewrite split_join_cons by done. by rewrite split_free_id.
Qed.

(** Masking what was masked, read back with [#] as the delimiter, finds
    nothing left to mask. *)
Lemma mask_pure_reread tag elements :
  Forall (λ w, hash ∉ w) elements → elements ≠ [] →
  let again := split hash (join hash (mask_pure tag elements)) in
  mask_pure tag again = again.
Proof.
  intros Hfree Hne. unfold mask_pure.
  destruct (decide (tag = lit "BEG")) as [_|_].
  - destruct (decide (5 < length elements)) as [H5|H5].
    + destruct elements as [|a0 [|a1 [|a2 [|a3 [|a4 [|e5 rest]]]]]];
        simpl in H5; try lia.
      repeat (apply Forall_cons in Hfree as [? Hfree]).
      cbn [alter list_alter]. cbv zeta.
      rewrite !split_join_free_cons by done.
      destruct (split_run_head hash (length e5) rest) as [ws Hws].
      unfold masked, times. rewrite Hws. done.
    + cbv zeta.
      rewrite (alter_fixed masked elements 5).
      2:{ intros x Hx. apply lookup_lt_Some in Hx. lia. }
      rewrite split_join by done.
      apply alter_fixed. intros x Hx. apply lookup_lt_Some in Hx. lia.
  - destruct (decide (tag = lit "DTM")) as [_|_]; [|done].
    cbv zeta.
    destruct elements as [|a0 [|a1 [|e2 rest]]]; [done| | |].
    + cbn [alter list_alter]. by rewrite split_join.
    + cbn [alter list_alter]. by rewrite split_join.
    + repeat (apply Forall_cons in Hfree as [? Hfree]).
      assert (∃ rest', alter masked 3 (alter masked 2 (a0 :: a1 :: e2 :: rest))
                = a0 :: a1 :: repeat hash (length e2) :: rest'
                ∧ (rest' = [] ∨ ∃ n r, rest' = repeat hash n :: r))
        as (rest' & -> & Hrest').
      { destruct rest as [|e3 rest]; cbn [alter list_alter].
        - eexists; split; [done|by left].
        - eexists; split; [done|]. right. by eexists _, _. }
      rewrite !split_join_free_cons by done.
      destruct (split_run_second hash (length e2) rest' Hrest')
        as (ws & -> & [->|[ws' ->]]); done.
Qed.

Lemma hd_split_join sep w parts :
  sep ∉ w → hd [] (split sep (join sep (w :: parts))) = w.
Proof.
  intros Hw. destruct parts as [|w' parts].
  - simpl. by rewrite split_free_id.
  - by rewrite split_join_free_cons.
Qed.

Lemma mask_one_idem sep seg :
  mask_one sep (mask_one sep seg) = mask_one sep seg.
Proof.
  unfold mask_one at 2.
  pose proof (split_nonempty sep seg) as Hne.
  pose proof (split_free sep seg) as Hfree.
  set (elements := split sep seg) in *.
  set (tag := hd [] elements).
  assert (mask_pure tag elements ≠ []) as Hne'.
  { intros Hnil. apply (f_equal length) in Hnil.
    rewrite mask_pure_length in Hnil. by destruct elements. }
  destruct (decide (sep = hash)) as [->|Hsep].
  - unfold mask_one.
    assert (hd [] (split hash (join hash (mask_pure tag elements))) = tag)
      as ->.
    { pose proof (mask_pure_hd tag elements) as Hhd.
      destruct elements as [|a0 rest]; [done|].
      destruct (mask_pure tag (a0 :: rest)) as [|b0 rest']; [done|].
      simpl in Hhd. subst b0. rewrite hd_split_join; [done|].
      by apply Forall_cons in Hfree as [? _]. }
    rewrite mask_pure_reread by done. by rewrite join_split.
  - unfold mask_one.
    rewrite split_join by (by try apply mask_pure_free).
    rewrite mask_pure_hd. fold tag. by rewrite mask_pure_idem.
Qed.

(** ** The envelope parser *)

Lemma startswith_prefix p s : startswith p s = true ↔ p `prefix_of` s.
Proof.
  revert s. induction p as [|a p IH]; intros s; simpl.
  - split; [intros _; apply prefix_nil | done].
  - destruct s as [|b s].
    + split; [done|]. intros [k Hk]. done.
    + rewrite andb_true_iff, bool_decide_eq_true, IH. split.
      * intros [-> Hp]. by apply prefix_cons.
      * intros [k Hk]. simpl in Hk. simplify_eq. split; [done|]. by exists k.
Qed.

Lemma find_first {A} (f : A → bool) (l : list A) x :
  List.find f l = Some x ↔
  ∃ before after,
    l = before ++ x :: after ∧ Forall (λ y, f y = false) before ∧ f x = true.
Proof.
  induction l as [|y l IH]; simpl.
  - split; [done|]. intros (before & after & H & _). by destruct before.
  - destruct (f y) eqn:Hy.
    + split.
      * intros [= ->]. by exists [], l.
      * intros ([|z before] & after & Hl & Hbefore & Hx); simpl in Hl;
          simplify_eq; [done|].
        apply Forall_cons in Hbefore as [? _]. congruence.
    + rewrite IH. split.
      * intros (before & after & -> & Hbefore & Hx).
        exists (y :: before), after. split; [done|]. split; [|done].
        by constructor.
      * intros ([|z before] & after & Hl & Hbefore & Hx); simpl in Hl;
          simplify_eq; [congruence|].
        apply Forall_cons in Hbefore as [_ ?]. by exists before, after.
Qed.

Lemma find_none {A} (f : A → bool) (l : list A) :
  List.find f l = None ↔ Forall (λ y, f y = false) l.
Proof.
  induction l as [|y l IH]; simpl; [by split|].
  destruct (f y) eqn:Hy.
  - split; [done|]. intros [? _]%Forall_cons. congruence.
  - rewrite IH. split; [by constructor|]. by intros [_ ?]%Forall_cons.
Qed.

Lemma not_startswith p s : startswith p s = false ↔ ¬ p `prefix_of` s.
Proof. rewrite <- startswith_prefix. by destruct (startswith p s). Qed.

Lemma find_isa_segment_ok text seg :
  find_isa_segment text = Ok seg ↔ first_isa_segment text seg.
Proof.
  unfold find_isa_segment, first_isa_segment.
  destruct (List.find _ _) as [seg'|] eqn:Hfind.
  - apply find_first in Hfind as (before & after & Hsplit & Hbefore & Hseg).
    rewrite Hsplit. split.
    + intros [= <-]. exists before, after. split; [done|]. split.
      * eapply Forall_impl; [done|]. intros s. by rewrite not_startswith.
      * by apply startswith_prefix.
    + intros (before' & after' & Heq & Hbefore' & Hseg').
      f_equal.
      assert (Forall (λ s, ¬ lit "ISA" `prefix_of` s) before) as Hb.
      { eapply Forall_impl; [done|]. intros s. by rewrite not_startswith. }
      apply startswith_prefix in Hseg. clear Hbefore Hsplit.
      revert before' Heq Hbefore'.
      induction Hb as [|y before Hy _ IH]; intros [|z before'] Heq Hb';
        simpl in Heq; simplify_eq; try done.
      * by apply Forall_cons in Hb' as [? _].
      * apply Forall_cons in Hb' as [_ ?]. by eapply IH.
  - split; [done|]. intros (before & after & Hsplit & _ & Hseg).
    apply find_none in Hfind. rewrite Hsplit in Hfind.
    apply Forall_app in Hfind as [_ [Hno _]%Forall_cons].
    apply not_startswith in Hno. done.
Qed.

Lemma find_isa_segment_missing text :
  find_isa_segment text = Raise MissingEnvelopeError ↔ no_isa_segment text.
Proof.
  unfold find_isa_segment, no_isa_segment.
  destruct (List.find _ _) as [seg'|] eqn:Hfind.
  - split; [done|]. intros Hno.
    apply find_first in Hfind as (before & after & Hsplit & _ & Hseg).
    rewrite Hsplit in Hno.
    apply Forall_app in Hno as [_ [Hno _]%Forall_cons].
    by apply startswith_prefix in Hseg.
  - split; [|done]. intros _. apply find_none in Hfind.
    eapply Forall_impl; [done|]. intros s. by rewrite not_startswith.
Qed.

Lemma find_isa_segment_cases text :
  (∃ seg, find_isa_segment text = Ok seg)
  ∨ find_isa_segment text = Raise MissingEnvelopeError.
Proof.
  unfold find_isa_segment. destruct (List.find _ _); [left|right]; eauto.
Qed.

(** The guarded reads of the header fields never raise. *)
Lemma element_or_empty_ok elements i :
  element_or_empty elements i = Ok (default [] (elements !! i)).
Proof.
  unfold element_or_empty. case_decide as Hi.
  - destruct (lookup_lt_is_Some_2 elements i Hi) as [e He].
    by rewrite (getitem_ok _ _ _ He), He.
  - by rewrite lookup_ge_None_2 by lia.
Qed.

Lemma stripped_or_empty_ok elements i :
  stripped_or_empty elements i = Ok (strip (default [] (elements !! i))).
Proof.
  unfold stripped_or_empty. case_decide as Hi.
  - destruct (lookup_lt_is_Some_2 elements i Hi) as [e He].
    by rewrite (getitem_ok _ _ _ He), He.
  - by rewrite lookup_ge_None_2 by lia.
Qed.

Lemma isa_dict_total elements : ∃ d, isa_dict elements = Ok d.
Proof.
  unfold isa_dict.
  rewrite !element_or_empty_ok, !stripped_or_empty_ok. simpl. by eexists.
Qed.

Lemma gs_dict_total elements : ∃ d, gs_dict elements = Ok d.
Proof.
  unfold gs_dict. rewrite !element_or_empty_ok. simpl. by eexists.
Qed.

(** Two different literals of the source are different strings. *)
Ltac distinct_literals :=
  solve [ let H := fresh in intros H; vm_compute in H; discriminate H ].

(** One segment: the loop body returns, and the payload grows by the
    segment exactly when [captured_payload] keeps it. *)
Lemma parse_segment_payload sep st seg :
  ∃ st', parse_segment sep st seg = Ok st'
    ∧ ∀ rest,
        st_payload st' ++ captured_payload sep (capture_payload st') rest
        = st_payload st ++ captured_payload sep (capture_payload st) (seg :: rest).
Proof.
  unfold parse_segment. cbn [captured_payload]. unfold first_element.
  pose proof (split_nonempty sep seg) as Hne.
  destruct (split sep seg) as [|tag elements] eqn:Hsplit; [done|].
  cbn [truthy negb hd].
  change (getitem (tag :: elements) 0) with (Ok (A:=list N) tag). simpl.
  destruct tag as [|c tag]; cbn [truthy negb].
  { eexists; split; [done|]. intros rest.
    rewrite !decide_False by distinct_literals. by rewrite andb_false_r. }
  destruct (decide (c :: tag = lit "ISA")) as [Hisa|Hisa].
  { destruct (isa_dict_total ((c :: tag) :: elements)) as [d ->]. simpl.
    eexists; split; [done|]. intros rest. simpl. rewrite Hisa.
    rewrite !decide_False by distinct_literals.
    rewrite bool_decide_eq_false_2 by tauto. by rewrite andb_false_r. }
  destruct (decide (c :: tag = lit "GS")) as [Hgs|Hgs].
  { destruct (gs_dict_total ((c :: tag) :: elements)) as [d ->]. simpl.
    eexists; split; [done|]. intros rest. simpl. rewrite Hgs.
    rewrite !decide_False by distinct_literals.
    rewrite bool_decide_eq_false_2 by tauto. by rewrite andb_false_r. }
  destruct (decide (c :: tag = lit "ST")) as [Hst|Hst].
  { eexists; split; [done|]. done. }
  destruct (decide (c :: tag = lit "SE")) as [Hse|Hse].
  { eexists; split; [done|]. done. }
  rewrite bool_decide_eq_true_2 by done. rewrite andb_true_r.
  assert (truthy seg = true) as ->.
  { destruct seg; [|done]. simpl in Hsplit. by simplify_eq. }
  rewrite andb_true_r.
  destruct (capture_payload st) eqn:Hcap; simpl.
  - eexists; split; [done|]. intros rest. simpl. rewrite ?Hcap.
    by rewrite <- app_assoc.
  - eexists; split; [done|]. intros rest. by rewrite ?Hcap.
Qed.

Lemma parse_loop_payload sep segs st :
  ∃ st', for_each (parse_segment sep) segs st = Ok st'
    ∧ st_payload st'
      = st_payload st ++ captured_payload sep (capture_payload st) segs.
Proof.
  revert st. induction segs as [|seg segs IH]; intros st.
  - exists st. simpl. by rewrite app_nil_r.
  - destruct (parse_segment_payload sep st seg) as (st1 & Hstep & Hpay).
    destruct (IH st1) as (st' & Hloop & Hpay').
    exists st'. simpl. rewrite Hstep. simpl. split; [done|].
    by rewrite Hpay', Hpay.
Qed.

(** The three ways [parse_edi] can end. *)
Lemma parse_edi_missing text :
  no_isa_segment text → parse_edi text = Raise MissingEnvelopeError.
Proof.
  intros H%find_isa_segment_missing. unfold parse_edi. by rewrite H.
Qed.

Lemma parse_edi_short text seg :
  first_isa_segment text seg → length seg < 4 →
  parse_edi text = Raise IndexError.
Proof.
  intros Hseg%find_isa_segment_ok Hlen. unfold parse_edi. rewrite Hseg. simpl.
  change 3%Z with (Z.of_nat 3). rewrite getitem_lookup.
  by rewrite lookup_ge_None_2 by lia.
Qed.

Lemma parse_edi_found text seg :
  first_isa_segment text seg → 4 ≤ length seg →
  ∃ p delim, parse_edi text = Ok p
    ∧ seg !! 3 = Some delim
    ∧ data_element (seps p) = delim
    ∧ segment (seps p) = tilde
    ∧ (106 ≤ length seg → seg !! (length seg - 2) = Some (sub_element (seps p)))
    ∧ (length seg < 106 → sub_element (seps p) = colon)
    ∧ inner_payload p = captured_payload delim false (split tilde text).
Proof.
  intros Hseg%find_isa_segment_ok Hlen. unfold parse_edi. rewrite Hseg. simpl.
  destruct (lookup_lt_is_Some_2 seg 3) as [delim Hdelim]; [lia|].
  change 3%Z with (Z.of_nat 3). rewrite (getitem_ok _ _ _ Hdelim). simpl.
  destruct (parse_loop_payload delim (split tilde text) parse_init)
    as (st & Hloop & Hpay).
  case_decide as H106.
  - destruct (lookup_lt_is_Some_2 seg (length seg - 2)) as [sub Hsub]; [lia|].
    change (-2)%Z with (- Z.of_nat 2)%Z.
    rewrite (getitem_from_end seg 2 sub); [|lia|done]. simpl.
    rewrite Hloop. simpl. eexists _, delim. split; [done|]. simpl.
    repeat split; try done; lia.
  - simpl. rewrite Hloop. simpl. eexists _, delim. split; [done|]. simpl.
    repeat split; try done; lia.
Qed.

Lemma parse_edi_cases text :
  (no_isa_segment text ∧ parse_edi text = Raise MissingEnvelopeError)
  ∨ (∃ seg, first_isa_segment text seg ∧ length seg < 4
            ∧ parse_edi text = Raise IndexError)
  ∨ (∃ seg p, first_isa_segment text seg ∧ 4 ≤ length seg
              ∧ parse_edi text = Ok p).
Proof.
  destruct (find_isa_segment_cases text) as [[seg Hseg]|Hmiss].
  - apply find_isa_segment_ok in Hseg. right.
    destruct (decide (length seg < 4)) as [Hlen|Hlen].
    + left. exists seg. eauto using parse_edi_short.
    + right. destruct (parse_edi_found text seg Hseg) as (p & ? & ? & _); [lia|].
      exists seg, p. split; [done|]. split; [lia|done].
  - apply find_isa_segment_missing in Hmiss. left.
    eauto using parse_edi_missing.
Qed.

(** ** Delimiters, payload and the errors of the parser *)

(** C2: for a parseable document the element delimiter is the character at
    position 3 of the first segment that begins with ISA, the segment
    delimiter is the tilde, and the sub-element delimiter is the character
    at offset length - 2 of that segment when it has at least 106
    characters and the colon otherwise. *)
Theorem delimiter_set_from_isa (text : str) (p : parsed) :
  parse_edi text = Ok p →
  ∃ seg, first_isa_segment text seg
    ∧ seg !! 3 = Some (data_element (seps p))
    ∧ segment (seps p) = chr "~"
    ∧ (106 ≤ length seg →
       seg !! (length seg - 2) = Some (sub_element (seps p)))
    ∧ (length seg < 106 → sub_element (seps p) = chr ":").
Proof.
  intros Hp.
  destruct (parse_edi_cases text)
    as [[_ H]|[(seg & _ & _ & H)|(seg & p' & Hseg & Hlen & _)]];
    [congruence..|].
  destruct (parse_edi_found text seg Hseg Hlen)
    as (p'' & delim & Hp'' & Hd & Hde & Hsg & Hsub & Hcolon & _).
  assert (p'' = p) as -> by congruence.
  exists seg. by rewrite Hde.
Qed.

Lemma delimiter_set_from_isa_witness :
  ∃ p, parse_edi sample_order = Ok p
    ∧ ∃ seg, first_isa_segment sample_order seg
        ∧ seg !! 3 = Some (data_element (seps p))
        ∧ segment (seps p) = chr "~"
        ∧ (106 ≤ length seg →
           seg !! (length seg - 2) = Some (sub_element (seps p)))
        ∧ (length seg < 106 → sub_element (seps p) = chr ":").
Proof.
  destruct (succeeds_Ok (parse_edi sample_order)) as [p Hp];
    [vm_compute; reflexivity|].
  exists p. split; [exact Hp|].
  exact (delimiter_set_from_isa sample_order p Hp).
Defined.

(** C4, as amended: for a parseable document the payload is the ordered
    subsequence of the segments met while capture is on whose first element
    is non-empty and is none of ISA, GS, ST, SE; a segment whose first
    element is ST turns capture on, one whose first element is SE turns it
    off, the last one seen wins, and the kept segments are verbatim. *)
Theorem payload_is_captured_segments (text : str) (p : parsed) :
  parse_edi text = Ok p →
  inner_payload p
  = captured_payload (data_element (seps p)) false (split tilde text).
Proof.
  intros Hp.
  destruct (parse_edi_cases text)
    as [[_ H]|[(seg & _ & _ & H)|(seg & p' & Hseg & Hlen & _)]];
    [congruence..|].
  destruct (parse_edi_found text seg Hseg Hlen)
    as (p'' & delim & Hp'' & _ & Hde & _ & _ & _ & Hpay).
  assert (p'' = p) as -> by congruence.
  by rewrite Hde.
Qed.

Lemma payload_is_captured_segments_witness :
  ∃ p, parse_edi sample_order = Ok p
    ∧ inner_payload p
      = captured_payload (data_element (seps p)) false
          (split tilde sample_order).
Proof.
  destruct (succeeds_Ok (parse_edi sample_order)) as [p Hp];
    [vm_compute; reflexivity|].
  exists p. split; [exact Hp|].
  exact (payload_is_captured_segments sample_order p Hp).
Defined.

(** C4, as stated, fails: a GS segment between ST and SE is met while
    capture is on, and it is not part of the payload. *)
Lemma payload_skips_group_header :
  ∃ p, parse_edi group_inside_transaction = Ok p
    ∧ inner_payload p = [lit "N1*BY"]
    ∧ captured_while_on (data_element (seps p)) false
        (split tilde group_inside_transaction)
      = [lit "GS*PO*A*B"; lit "N1*BY"]
    ∧ inner_payload p
      ≠ captured_while_on (data_element (seps p)) false
          (split tilde group_inside_transaction).
Proof.
  destruct (succeeds_Ok (parse_edi group_inside_transaction)) as [p Hp];
    [vm_compute; reflexivity|].
  assert ((p ← parse_edi group_inside_transaction;
           Ok (inner_payload p, data_element (seps p)))
          = Ok ([lit "N1*BY"], chr "*")) as Hrun
    by (vm_compute; reflexivity).
  rewrite Hp in Hrun. cbn [mbind result_bind] in Hrun.
  injection Hrun as Hpayload Hdelim.
  exists p. split; [exact Hp|]. rewrite Hpayload, Hdelim.
  split; [reflexivity|]. split; [vm_compute; reflexivity|].
  vm_compute. discriminate.
Qed.

(** C7: what the code does on an ISA segment shorter than 4 characters.
    The read of position 3 is not guarded: the parse ends with the
    [IndexError] of that read, not with an error of the parser's own. *)
Theorem short_isa_segment_raises_index_error (text seg : str) :
  first_isa_segment text seg → length seg < 4 →
  parse_edi text = Raise IndexError.
Proof. apply parse_edi_short. Qed.

Lemma short_isa_segment_raises_index_error_witness :
  first_isa_segment bare_isa (lit "ISA")
  ∧ length (lit "ISA") < 4
  ∧ parse_edi bare_isa = Raise IndexError.
Proof.
  assert (first_isa_segment bare_isa (lit "ISA")) as Hfirst.
  { apply find_isa_segment_ok. vm_compute; reflexivity. }
  assert (length (lit "ISA") < 4) as Hlen by (vm_compute; lia).
  split; [exact Hfirst|]. split; [exact Hlen|].
  exact (short_isa_segment_raises_index_error bare_isa (lit "ISA") Hfirst Hlen).
Defined.

(** ** The normalizer *)

Lemma mask_dates_times_normalize payload delim :
  mask_dates_times payload delim = Ok (normalize payload delim).
Proof.
  rewrite mask_dates_times_ok. f_equal. unfold normalize.
  apply map_ext. intros seg. by rewrite normalize_segment_mask_one.
Qed.

(** C3: the masking pass computes, segment by segment and in order, what
    the specification says: element 5 of a BEG segment with more than 5
    elements, and elements 2 and 3 of a DTM segment when present and
    non-empty, become runs of [#] of the same length; every other segment
    is passed through; the elements are rejoined with the delimiter. *)
Theorem mask_dates_times_follows_specification
    (payload : list str) (element_delimiter : char) :
  mask_dates_times payload element_delimiter
  = Ok (normalize payload element_delimiter)
  ∧ length (normalize payload element_delimiter) = length payload
  ∧ ∀ i, normalize payload element_delimiter !! i
         = normalize_segment element_delimiter <$> payload !! i.
Proof.
  split; [|split].
  - rewrite mask_dates_times_ok. f_equal. unfold normalize.
    apply map_ext. intros seg. by rewrite normalize_segment_mask_one.
  - apply length_map.
  - intros i.
    apply (list_lookup_fmap (normalize_segment element_delimiter)).
Qed.

(** C9: masking is idempotent: for every payload and every element
    delimiter the masking pass returns, and applied to its own output with
    the same delimiter it returns that output unchanged. *)
Theorem masking_is_idempotent (payload : list str) (element_delimiter : char) :
  ∃ once,
    mask_dates_times payload element_delimiter = Ok once
    ∧ mask_dates_times once element_delimiter = Ok once.
Proof.
  exists (map (mask_one element_delimiter) payload).
  split; [apply mask_dates_times_ok|].
  rewrite mask_dates_times_ok. f_equal. rewrite map_map.
  apply map_ext. intros seg. apply mask_one_idem.
Qed.

(** C10: the masking pass never drops a segment.  The guarded body never
    raises, so the [except IndexError] branch is never taken, and the
    result has one segment per input segment, in the same order. *)
Theorem masking_never_drops (segments : list str) (data_element_sep : char) :
  (∀ seg, ∃ tag elements',
     truthy (split data_element_sep seg) = true
     ∧ getitem (split data_element_sep seg) 0 = Ok tag
     ∧ mask_elements tag (split data_element_sep seg) = Ok elements')
  ∧ ∃ out,
      mask_dates_times segments data_element_sep = Ok out
      ∧ length out = length segments
      ∧ ∀ i seg, segments !! i = Some seg →
          ∃ tag elements',
            getitem (split data_element_sep seg) 0 = Ok tag
            ∧ mask_elements tag (split data_element_sep seg) = Ok elements'
            ∧ out !! i = Some (join data_element_sep elements').
Proof.
  assert (∀ seg, ∃ tag,
            truthy (split data_element_sep seg) = true
            ∧ getitem (split data_element_sep seg) 0 = Ok tag
            ∧ mask_elements tag (split data_element_sep seg)
              = Ok (mask_pure tag (split data_element_sep seg))
            ∧ mask_one data_element_sep seg
              = join data_element_sep
                  (mask_pure tag (split data_element_sep seg))) as Hbody.
  { intros seg. unfold mask_one.
    pose proof (split_nonempty data_element_sep seg) as Hne.
    destruct (split data_element_sep seg) as [|tag rest]; [done|].
    exists tag. split; [done|]. split; [done|].
    split; [apply mask_elements_ok|done]. }
  split.
  - intros seg. destruct (Hbody seg) as (tag & ? & ? & ? & _). eauto.
  - exists (map (mask_one data_element_sep) segments).
    split; [apply mask_dates_times_ok|].
    split; [apply length_map|].
    intros i seg Hseg. destruct (Hbody seg) as (tag & _ & Htag & Hmask & Hone).
    exists tag, (mask_pure tag (split data_element_sep seg)).
    split; [done|]. split; [done|].
    rewrite <- Hone.
    change (map (mask_one data_element_sep) segments)
      with (mask_one data_element_sep <$> segments).
    by rewrite list_lookup_fmap, Hseg.
Qed.

Lemma masking_never_drops_witness :
  ∃ out,
    mask_dates_times [lit "BEG*00*SA"; lit "DTM*011"; lit ""] (chr "*") = Ok out
    ∧ length out = 3
    ∧ out !! 1 = Some (lit "DTM*011").
Proof.
  destruct (masking_never_drops [lit "BEG*00*SA"; lit "DTM*011"; lit ""]
              (chr "*")) as [_ (out & Hout & Hlen & Hnth)].
  exists out. split; [exact Hout|]. split; [exact Hlen|].
  destruct (Hnth 1 (lit "DTM*011") eq_refl) as (tag & elements' & Htag & Hmask & Hi).
  vm_compute in Htag. injection Htag as <-.
  vm_compute in Hmask. injection Hmask as <-.
  exact Hi.
Defined.

(** ** The pair comparator *)

Lemma all_equal_spec d1 d2 fields :
  all_equal d1 d2 fields = true ↔ ∀ k, k ∈ fields → get d1 k = get d2 k.
Proof.
  unfold all_equal. rewrite forallb_forall. split.
  - intros H k Hk. apply list_elem_of_In in Hk.
    by apply H, bool_decide_eq_true in Hk.
  - intros H k Hk. apply bool_decide_eq_true, H. by apply list_elem_of_In.
Qed.

Section Comparator.

Variable generate_summary_html_report :
  str → str → gmap string str → gmap string str →
  gmap string str → gmap string str → bool → bool → bool →
  str → str → str → str → result str.
Variable generate_diff_html : str → str → str → str → result str.

#[local] Abbreviation compare :=
  (compare_pair generate_summary_html_report generate_diff_html).
#[local] Abbreviation summary :=
  (summary_call generate_summary_html_report).
#[local] Abbreviation original_diff_of :=
  (original_diff_call generate_diff_html).
#[local] Abbreviation masked_diff_of :=
  (masked_diff_call generate_diff_html).

(** Once both documents parse, what is left of the comparison is the three
    renderer calls, in this order. *)
Lemma compare_pair_unfold n1 n2 t1 t2 p1 p2 :
  parse_edi t1 = Ok p1 → parse_edi t2 = Ok p2 →
  compare n1 n2 t1 t2
  = (summary_html ← summary n1 n2 p1 p2;
     original_diff ← original_diff_of n1 n2 t1 t2;
     masked_diff ← masked_diff_of n1 n2 p1 p2;
     Ok {| isa_match := all_equal (isa p1) (isa p2) isa_fields;
           gs_match := all_equal (gs p1) (gs p2) gs_fields;
           masked_match := bool_decide (masked_text p1 = masked_text p2);
           summary_html := summary_html;
           original_diff := original_diff;
           masked_diff := masked_diff;
           report_data :=
             {| file1_name := n1;
                file2_name := n2;
                isa_sender_qualifier := get (isa p1) "sender_qualifier";
                isa_sender_id := get (isa p1) "sender_id";
                isa_receiver_qualifier := get (isa p1) "receiver_qualifier";
                isa_receiver_id := get (isa p1) "receiver_id";
                report_gs01 := get (gs p1) "gs01";
                report_gs02 := get (gs p1) "gs02";
                report_gs03 := get (gs p1) "gs03";
                report_isa_match := all_equal (isa p1) (isa p2) isa_fields;
                report_gs_match := all_equal (gs p1) (gs p2) gs_fields;
                report_masked_match :=
                  bool_decide (masked_text p1 = masked_text p2) |} |}).
Proof.
  intros H1 H2. unfold compare_pair. rewrite H1, H2.
  cbn [mbind result_bind].
  rewrite !mask_dates_times_normalize. cbn [mbind result_bind].
  reflexivity.
Qed.

Lemma compare_pair_ok n1 n2 t1 t2 p1 p2 c :
  parse_edi t1 = Ok p1 → parse_edi t2 = Ok p2 →
  compare n1 n2 t1 t2 = Ok c →
  isa_match c = all_equal (isa p1) (isa p2) isa_fields
  ∧ gs_match c = all_equal (gs p1) (gs p2) gs_fields
  ∧ masked_match c = bool_decide (masked_text p1 = masked_text p2)
  ∧ file1_name (report_data c) = n1
  ∧ file2_name (report_data c) = n2.
Proof.
  intros H1 H2. rewrite (compare_pair_unfold n1 n2 t1 t2 p1 p2 H1 H2).
  destruct (summary n1 n2 p1 p2) as [s|]; [|done].
  destruct (original_diff_of n1 n2 t1 t2) as [d1|]; [|done].
  destruct (masked_diff_of n1 n2 p1 p2) as [d2|]; [|done].
  cbn [mbind result_bind]. by intros [= <-].
Qed.

(** With both documents parsed the comparison returns exactly when the
    three renderer calls do. *)
Lemma compare_pair_succeeds n1 n2 t1 t2 p1 p2 :
  parse_edi t1 = Ok p1 → parse_edi t2 = Ok p2 →
  succeeds (compare n1 n2 t1 t2)
  = succeeds (summary n1 n2 p1 p2)
    && succeeds (original_diff_of n1 n2 t1 t2)
    && succeeds (masked_diff_of n1 n2 p1 p2).
Proof.
  intros H1 H2. rewrite (compare_pair_unfold n1 n2 t1 t2 p1 p2 H1 H2).
  destruct (summary n1 n2 p1 p2) as [s|]; [|done].
  destruct (original_diff_of n1 n2 t1 t2) as [d1|]; [|done].
  by destruct (masked_diff_of n1 n2 p1 p2) as [d2|].
Qed.

Lemma compare_pair_first_fails n1 n2 t1 t2 e :
  parse_edi t1 = Raise e → compare n1 n2 t1 t2 = Raise e.
Proof. intros H. unfold compare_pair. by rewrite H. Qed.

Lemma compare_pair_second_fails n1 n2 t1 t2 p1 e :
  parse_edi t1 = Ok p1 → parse_edi t2 = Raise e →
  compare n1 n2 t1 t2 = Raise e.
Proof. intros H1 H2. unfold compare_pair. by rewrite H1, H2. Qed.


(** C6: the parse fails with the missing-envelope error exactly when no
    segment of the text begins with ISA; the comparator hands that error
    to its caller and returns no result for the pair. *)
Theorem missing_envelope_is_fatal (text : str) :
  (parse_edi text = Raise MissingEnvelopeError ↔ no_isa_segment text)
  ∧ ∀ n1 n2 other,
      (no_isa_segment text →
       compare n1 n2 text other = Raise MissingEnvelopeError)
      ∧ (no_isa_segment text →
         ∃ e, compare n1 n2 other text = Raise e)
      ∧ (∀ p, parse_edi other = Ok p → no_isa_segment text →
         compare n1 n2 other text = Raise MissingEnvelopeError).
Proof.
  split.
  - split; [|apply parse_edi_missing].
    intros Hp. unfold MissingEnvelopeError in Hp.
    destruct (parse_edi_cases text)
      as [[H _]|[(seg & _ & _ & H)|(seg & p' & _ & _ & H)]];
      [done|congruence..].
  - intros n1 n2 other. split; [|split].
    + intros H%parse_edi_missing. by apply compare_pair_first_fails.
    + intros H%parse_edi_missing.
      destruct (parse_edi other) as [p|e] eqn:Hother.
      * exists MissingEnvelopeError. by eapply compare_pair_second_fails.
      * exists e. by apply compare_pair_first_fails.
    + intros p Hp H%parse_edi_missing. by eapply compare_pair_second_fails.
Qed.

(** C8, as amended: for two parseable documents with the same header
    fields, the same group fields, the same payload and the same element
    delimiter, the comparison returns exactly when its three renderer calls
    return, and the result it returns matches on all three verdicts; in
    particular so does the comparison of a parseable document with
    itself. *)
Theorem identical_documents_match (n1 n2 : str) :
  (∀ t1 t2 p1 p2,
     parse_edi t1 = Ok p1 → parse_edi t2 = Ok p2 →
     (∀ k, k ∈ isa_fields → get (isa p1) k = get (isa p2) k) →
     (∀ k, k ∈ gs_fields → get (gs p1) k = get (gs p2) k) →
     inner_payload p1 = inner_payload p2 →
     data_element (seps p1) = data_element (seps p2) →
     succeeds (compare n1 n2 t1 t2)
     = succeeds (summary n1 n2 p1 p2)
       && succeeds (original_diff_of n1 n2 t1 t2)
       && succeeds (masked_diff_of n1 n2 p1 p2)
     ∧ ∀ c, compare n1 n2 t1 t2 = Ok c →
         isa_match c = true ∧ gs_match c = true ∧ masked_match c = true)
  ∧ (∀ t p,
       parse_edi t = Ok p →
       succeeds (compare n1 n2 t t)
       = succeeds (summary n1 n2 p p)
         && succeeds (original_diff_of n1 n2 t t)
         && succeeds (masked_diff_of n1 n2 p p)
       ∧ ∀ c, compare n1 n2 t t = Ok c →
           isa_match c = true ∧ gs_match c = true ∧ masked_match c = true).
Proof.
  assert (∀ t1 t2 p1 p2,
     parse_edi t1 = Ok p1 → parse_edi t2 = Ok p2 →
     (∀ k, k ∈ isa_fields → get (isa p1) k = get (isa p2) k) →
     (∀ k, k ∈ gs_fields → get (gs p1) k = get (gs p2) k) →
     inner_payload p1 = inner_payload p2 →
     data_element (seps p1) = data_element (seps p2) →
     succeeds (compare n1 n2 t1 t2)
     = succeeds (summary n1 n2 p1 p2)
       && succeeds (original_diff_of n1 n2 t1 t2)
       && succeeds (masked_diff_of n1 n2 p1 p2)
     ∧ ∀ c, compare n1 n2 t1 t2 = Ok c →
         isa_match c = true ∧ gs_match c = true ∧ masked_match c = true)
    as Hsame.
  { intros t1 t2 p1 p2 H1 H2 Hisa Hgs Hpay Hsep.
    split; [by apply compare_pair_succeeds|]. intros c Hc.
    destruct (compare_pair_ok n1 n2 t1 t2 p1 p2 c H1 H2 Hc)
      as (Hi & Hg & Hm & _).
    rewrite Hi, Hg, Hm.
    split; [by apply all_equal_spec|]. split; [by apply all_equal_spec|].
    apply bool_decide_eq_true. unfold masked_text. by rewrite Hpay, Hsep. }
  split; [exact Hsame|].
  intros t p Hp. by apply (Hsame t t p p).
Qed.

End Comparator.


Lemma missing_envelope_is_fatal_witness :
  no_isa_segment no_envelope
  ∧ parse_edi no_envelope = Raise MissingEnvelopeError
  ∧ compare_pair no_summary_html no_diff_html
      (lit "a.edi") (lit "b.edi") no_envelope sample_order
    = Raise MissingEnvelopeError
  ∧ compare_pair no_summary_html no_diff_html
      (lit "a.edi") (lit "b.edi") sample_order no_envelope
    = Raise MissingEnvelopeError.
Proof.
  assert (no_isa_segment no_envelope) as Hno.
  { apply find_isa_segment_missing. vm_compute; reflexivity. }
  destruct (succeeds_Ok (parse_edi sample_order)) as [p Hp];
    [vm_compute; reflexivity|].
  destruct (missing_envelope_is_fatal no_summary_html no_diff_html no_envelope)
    as [Hiff Hcmp].
  destruct (Hcmp (lit "a.edi") (lit "b.edi") sample_order)
    as (Hfirst & _ & Hsecond).
  split; [exact Hno|]. split; [exact (proj2 Hiff Hno)|].
  split; [exact (Hfirst Hno)|exact (Hsecond p Hp Hno)].
Defined.

Lemma identical_documents_match_witness :
  ∃ p c,
    parse_edi sample_order = Ok p
    ∧ compare_pair no_summary_html no_diff_html
        (lit "a.edi") (lit "b.edi") sample_order sample_order = Ok c
    ∧ isa_match c = true ∧ gs_match c = true ∧ masked_match c = true.
Proof.
  destruct (succeeds_Ok (parse_edi sample_order)) as [p Hp];
    [vm_compute; reflexivity|].
  destruct (succeeds_Ok
              (compare_pair no_summary_html no_diff_html
                 (lit "a.edi") (lit "b.edi") sample_order sample_order))
    as [c Hc]; [vm_compute; reflexivity|].
  destruct (identical_documents_match no_summary_html no_diff_html
              (lit "a.edi") (lit "b.edi")) as [Hsame _].
  destruct (Hsame sample_order sample_order p p Hp Hp
              (λ _ _, eq_refl) (λ _ _, eq_refl) eq_refl eq_refl)
    as (_ & Hverdicts).
  exists p, c. split; [exact Hp|]. split; [exact Hc|].
  exact (Hverdicts c Hc).
Defined.

(** C8, as stated, fails: the two documents below have the same header
    fields, the same group fields and the same payload, but each payload is
    masked with its own document's delimiter, and the masked texts differ. *)
Lemma same_payload_other_delimiter_differs :
  ∃ p1 p2 c,
    parse_edi star_delimited = Ok p1
    ∧ parse_edi bar_delimited = Ok p2
    ∧ (∀ k, k ∈ isa_fields → get (isa p1) k = get (isa p2) k)
    ∧ (∀ k, k ∈ gs_fields → get (gs p1) k = get (gs p2) k)
    ∧ inner_payload p1 = inner_payload p2
    ∧ compare_pair no_summary_html no_diff_html
        (lit "a.edi") (lit "b.edi") star_delimited bar_delimited = Ok c
    ∧ isa_match c = true ∧ gs_match c = true ∧ masked_match c = false.
Proof.
  destruct (succeeds_Ok (parse_edi star_delimited)) as [p1 H1];
    [vm_compute; reflexivity|].
  destruct (succeeds_Ok (parse_edi bar_delimited)) as [p2 H2];
    [vm_compute; reflexivity|].
  destruct (succeeds_Ok
              (compare_pair no_summary_html no_diff_html
                 (lit "a.edi") (lit "b.edi") star_delimited bar_delimited))
    as [c Hc]; [vm_compute; reflexivity|].
  destruct (compare_pair_ok no_summary_html no_diff_html
              (lit "a.edi") (lit "b.edi") _ _ p1 p2 c H1 H2 Hc)
    as (Hisa & Hgs & _).
  assert ((p1 ← parse_edi star_delimited; p2 ← parse_edi bar_delimited;
           Ok (inner_payload p1, inner_payload p2))
          = Ok ([lit "DTM*011*20240101"], [lit "DTM*011*20240101"])) as Hpay
    by (vm_compute; reflexivity).
  rewrite H1, H2 in Hpay. cbn [mbind result_bind] in Hpay.
  injection Hpay as Hpay1 Hpay2.
  assert ((c ← compare_pair no_summary_html no_diff_html
                 (lit "a.edi") (lit "b.edi") star_delimited bar_delimited;
           Ok (isa_match c, gs_match c, masked_match c))
          = Ok (true, true, false)) as Hrun
    by (vm_compute; reflexivity).
  rewrite Hc in Hrun. cbn [mbind result_bind] in Hrun.
  injection Hrun as Hi Hg Hm.
  exists p1, p2, c. split; [exact H1|]. split; [exact H2|].
  split; [apply all_equal_spec; congruence|].
  split; [apply all_equal_spec; congruence|].
  split; [congruence|]. split; [exact Hc|]. done.
Qed.

(** ** Batch folder processing *)

Lemma getitem_last {A} (l : list A) d :
  l ≠ [] → getitem l (-1) = Ok (List.last l d).
Proof.
  intros Hne. apply (getitem_from_end l 1).
  - destruct l; [done|]. simpl. lia.
  - clear -Hne. induction l as [|x [|y l] IH]; [done|done|].
    replace (length (x :: y :: l) - 1) with (S (length (y :: l) - 1))
      by (simpl; lia).
    by apply IH.
Qed.

Lemma getitem_hd {A} (l : list A) d : l ≠ [] → getitem l 0 = Ok (hd d l).
Proof. by destruct l. Qed.

Lemma split_length_contains sep s :
  contains sep s = true → 2 ≤ length (split sep s).
Proof.
  unfold contains. rewrite bool_decide_eq_true.
  induction s as [|c s IH]; [by intros ?%elem_of_nil|].
  intros Hin. pose proof (split_nonempty sep s) as Hne. simpl.
  case_decide as Hc.
  - destruct (split sep s); [done|]. simpl. lia.
  - apply elem_of_cons in Hin as [->|Hin]; [done|].
    specialize (IH Hin). by destruct (split sep s).
Qed.

Lemma to_files_map_snoc to_files f :
  to_files_map (to_files ++ [f])
  = <[basename (name f) := f]> (to_files_map to_files).
Proof. unfold to_files_map. by rewrite foldl_app. Qed.


Lemma to_files_map_Some to_files n tf :
  to_files_map to_files !! n = Some tf →
  tf ∈ to_files ∧ basename (name tf) = n.
Proof.
  induction to_files as [|f to_files IH] using rev_ind; [done|].
  rewrite to_files_map_snoc, lookup_insert_Some.
  intros [[<- <-]|[_ H]].
  - split; [|done]. apply elem_of_app. right. by apply list_elem_of_singleton.
  - destruct (IH H). split; [|done]. apply elem_of_app. by left.
Qed.

Section Batch.

Variable generate_summary_html_report :
  list N → list N → gmap string (list N) → gmap string (list N) →
  gmap string (list N) → gmap string (list N) → bool → bool → bool →
  list N → list N → list N → list N → result (list N).
Variable generate_diff_html :
  list N → list N → list N → list N → result (list N).

#[local] Abbreviation compare :=
  (compare_pair generate_summary_html_report generate_diff_html).
#[local] Abbreviation step :=
  (batch_step generate_summary_html_report generate_diff_html).

Lemma batch_step_unfold to_map st f :
  step to_map st f
  = if contains underscore (filename f) then
      match to_map !! target_name (filename f) with
      | None => Ok st
      | Some to_file =>
          from_content ← read_content f;
          to_content ← read_content to_file;
          c ← compare (filename f) (target_name (filename f))
                 from_content to_content;
          Ok (record_pair st (filename f) c)
      end
    else Ok st.
Proof.
  unfold batch_step, filename.
  destruct (contains underscore (basename (name f))) eqn:Hus; [|done].
  cbn [negb].
  pose proof (split_length_contains _ _ Hus) as Hlen.
  pose proof (split_nonempty underscore (basename (name f))) as Hne.
  rewrite decide_False by lia.
  rewrite (getitem_last _ []) by done. cbn [mbind result_bind].
  rewrite (getitem_hd _ []) by apply split_nonempty. cbn [mbind result_bind].
  rewrite (getitem_hd _ []) by apply split_nonempty. cbn [mbind result_bind].
  done.
Qed.

Lemma compare_pair_names n1 n2 t1 t2 c :
  compare n1 n2 t1 t2 = Ok c →
  file1_name (report_data c) = n1 ∧ file2_name (report_data c) = n2.
Proof.
  destruct (parse_edi t1) as [p1|] eqn:H1;
    [|by rewrite (compare_pair_first_fails _ _ n1 n2 t1 t2 _ H1)].
  destruct (parse_edi t2) as [p2|] eqn:H2;
    [|by rewrite (compare_pair_second_fails _ _ n1 n2 t1 t2 _ _ H1 H2)].
  intros Hc.
  by destruct (compare_pair_ok _ _ n1 n2 t1 t2 p1 p2 c H1 H2 Hc)
    as (_ & _ & _ & ? & ?).
Qed.

(** One iteration that returns either skips the file or records one
    comparison of it. *)
Lemma batch_step_returns to_map st f st' :
  step to_map st f = Ok st' →
  (¬ matched to_map f ∧ st' = st)
  ∨ (matched to_map f
     ∧ ∃ c, st' = record_pair st (filename f) c
         ∧ file1_name (report_data c) = filename f).
Proof.
  rewrite batch_step_unfold. unfold matched.
  destruct (contains underscore (filename f)) eqn:Hus.
  - destruct (to_map !! target_name (filename f)) as [to_file|] eqn:Hto.
    + destruct (read_content f) as [fc|]; [|done].
      destruct (read_content to_file) as [tc|]; [|done]. simpl.
      destruct (compare _ _ fc tc) as [c|] eqn:Hc; [|done]. simpl.
      intros [= <-]. right. split; [by eauto|].
      exists c. split; [done|]. by apply compare_pair_names in Hc as [? _].
    + intros [= <-]. left. split; [|done]. intros [_ [? ?]]. done.
  - intros [= <-]. left. split; [|done]. by intros [? _].
Qed.

Lemma batch_loop_invariant to_map from_files final :
  for_each (step to_map) from_files batch_init = Ok final →
  batch_invariant to_map from_files final.
Proof.
  revert final. induction from_files as [|f from_files IH] using rev_ind.
  - intros final [= <-]. split; [done|]. split.
    + intros key e H. simpl in H. by rewrite lookup_empty in H.
    + by intros f ?%elem_of_nil.
  - intros final. rewrite for_each_app.
    destruct (for_each _ from_files batch_init) as [st|] eqn:Hloop; [|done].
    simpl. destruct (step to_map st f) as [st'|] eqn:Hstep; [|done].
    intros [= <-]. destruct (IH st eq_refl) as (Hreports & Hresults & Hkeys).
    apply batch_step_returns in Hstep
      as [[Hno ->]|(Hyes & c & -> & Hname)].
    + split; [|split].
      * rewrite filter_app, filter_cons_False by done.
        by rewrite filter_nil, app_nil_r.
      * intros key e He. destruct (Hresults key e He) as (g & Hg & ?).
        exists g. split; [|done]. apply elem_of_app. by left.
      * intros g [Hg| ->%list_elem_of_singleton]%elem_of_app Hm; [auto|done].
    + split; [|split].
      * simpl. rewrite map_app, Hreports.
        rewrite filter_app, filter_cons_True by done.
        rewrite filter_nil, map_app. simpl. by rewrite Hname.
      * intros key e. simpl. rewrite lookup_insert_Some.
        intros [[<- <-]|[_ He]].
        -- exists f. split; [|done]. apply elem_of_app. right.
           by apply list_elem_of_singleton.
        -- destruct (Hresults key e He) as (g & Hg & ?).
           exists g. split; [|done]. apply elem_of_app. by left.
      * intros g Hg Hm. simpl.
        destruct (decide (pairing_key (filename f) = pairing_key (filename g)))
          as [Heq|Hne].
        -- rewrite Heq, lookup_insert_eq. by eexists.
        -- rewrite lookup_insert_ne by done.
           apply elem_of_app in Hg as [Hg| ->%list_elem_of_singleton]; [auto|done].
Qed.


End Batch.


(** ** Worked examples *)

(** The header fields sit at elements 5, 6, 7, 8 and 13 of the ISA segment;
    the two identifiers are trimmed. *)
Example sample_order_header :
  (p ← parse_edi sample_order;
   Ok (get (isa p) "sender_qualifier", get (isa p) "sender_id",
       get (isa p) "receiver_qualifier", get (isa p) "receiver_id",
       get (isa p) "control_number"))
  = Ok (lit "ZZ", lit "SENDER", lit "ZZ", lit "RECEIVER", lit "000000001").
Proof. vm_compute. reflexivity. Qed.

Example sample_order_group :
  (p ← parse_edi sample_order;
   Ok (get (gs p) "gs01", get (gs p) "gs02", get (gs p) "gs03"))
  = Ok (lit "PO", lit "SENDER", lit "RECEIVER").
Proof. vm_compute. reflexivity. Qed.

(** The ISA segment of the sample has 105 characters, one short of the
    threshold, so the sub-element delimiter is the default. *)
Example sample_order_payload :
  (p ← parse_edi sample_order; Ok (inner_payload p, seps p))
  = Ok ([lit "BEG*00*SA*PO1**20240101"; lit "DTM*011*20240101"],
        {| data_element := chr "*"; sub_element := chr ":";
           segment := chr "~" |}).
Proof. vm_compute. reflexivity. Qed.

(** An ISA segment of 106 characters: the sub-element delimiter is its
    last character but one. *)
Example long_isa_segment :
  (p ← parse_edi
         (lit "ISA*00*          *00*          *ZZ*SENDER         *ZZ*RECEIVER       *240101*1200*U*00401*000000001*0*P*>:~");
   Ok (seps p))
  = Ok {| data_element := chr "*"; sub_element := chr ">";
          segment := chr "~" |}.
Proof. vm_compute. reflexivity. Qed.

Example mask_dtm :
  mask_dates_times [lit "DTM*011*20240101"] (chr "*")
  = Ok [lit "DTM*011*########"].
Proof. vm_compute. reflexivity. Qed.

Example mask_dtm_date_and_time :
  mask_dates_times [lit "DTM*011*20240101*1200*UT"] (chr "*")
  = Ok [lit "DTM*011*########*####*UT"].
Proof. vm_compute. reflexivity. Qed.

Example mask_beg :
  mask_dates_times [lit "BEG*00*SA*PO1**20240101"; lit "BEG*00*SA*PO1*"]
    (chr "*")
  = Ok [lit "BEG*00*SA*PO1**########"; lit "BEG*00*SA*PO1*"].
Proof. vm_compute. reflexivity. Qed.

Example mask_other_tag :
  mask_dates_times [lit "N1*BY*20240101*1200"; lit ""] (chr "*")
  = Ok [lit "N1*BY*20240101*1200"; lit ""].
Proof. vm_compute. reflexivity. Qed.

(** With [#] as the delimiter the masked element reads back as empty
    elements, and a second pass changes nothing. *)
Example mask_hash_delimited :
  mask_dates_times [lit "DTM#011#2024#12"] (chr "#")
  = Ok [lit "DTM#011########"]
  ∧ mask_dates_times [lit "DTM#011########"] (chr "#")
    = Ok [lit "DTM#011########"].
Proof. split; vm_compute; reflexivity. Qed.

(** Two orders that differ in their dates only: the masked payloads agree. *)
Example orders_a_day_apart_match :
  (c ← compare_pair no_summary_html no_diff_html
         (lit "a.edi") (lit "b.edi") sample_order sample_order_next_day;
   Ok (isa_match c, gs_match c, masked_match c))
  = Ok (true, true, true).
Proof. vm_compute. reflexivity. Qed.

Example sample_pairing :
  pairing_key (lit "order_aaa111.txt") = lit "aaa111"
  ∧ target_name (lit "order_aaa111.txt") = lit "orderbla_aaa111.txt"
  ∧ pairing_key (lit "a_b_c.d.e") = lit "c"
  ∧ target_name (lit "a_b_c.d.e") = lit "abla_c.txt".
Proof. repeat split; vm_compute; reflexivity. Qed.

Example batch_without_pairs :
  batch_folder_processing no_summary_html no_diff_html
    [sample_unpaired; sample_orphan] [sample_target]
  = Ok NoMatchingPairs.
Proof. vm_compute. reflexivity. Qed.

Example batch_with_one_pair :
  (out ← batch_folder_processing no_summary_html no_diff_html
           [sample_source; sample_unpaired; sample_orphan] [sample_target];
   Ok (match out with
       | Processed st =>
           (from_name <$> results st !! lit "aaa111",
            map report_masked_match (all_report_data st))
       | _ => (None, [])
       end))
  = Ok (Some (lit "order_aaa111.txt"), [true]).
Proof. vm_compute. reflexivity. Qed.

Example decode_three_code_points :
  decode_utf8 [226; 130; 172; 195; 169; 240; 159; 152; 128]%N
  = Ok [8364; 233; 128512]%N.
Proof. reflexivity. Qed.

Example decode_rejects_surrogate :
  decode_utf8 [237; 160; 128]%N = Raise UnicodeDecodeError.
Proof. reflexivity. Qed.

Example remove_newlines_keeps_lone_cr :
  remove_newlines [13; 13; 10; 65; 10; 13; 66; 13]%N = [13; 65; 13; 66; 13]%N.
Proof. reflexivity. Qed.

(** * Further properties *)

(** ** The header dictionaries *)

Lemma isa_dict_ok elements : isa_dict elements = Ok (isa_of elements).
Proof.
  unfold isa_dict.
  by rewrite !element_or_empty_ok, !stripped_or_empty_ok.
Qed.

Lemma gs_dict_ok elements : gs_dict elements = Ok (gs_of elements).
Proof. unfold gs_dict. by rewrite !element_or_empty_ok. Qed.

(** One segment: what the loop body does to the two dictionaries. *)
Lemma parse_segment_headers sep st seg :
  ∃ st', parse_segment sep st seg = Ok st'
    ∧ st_isa st'
      = (if decide (first_element sep seg = lit "ISA")
         then isa_of (split sep seg) else st_isa st)
    ∧ st_gs st'
      = (if decide (first_element sep seg = lit "GS")
         then gs_of (split sep seg) else st_gs st).
Proof.
  unfold parse_segment, first_element.
  pose proof (split_nonempty sep seg) as Hne.
  destruct (split sep seg) as [|tag elements] eqn:Hsplit; [done|].
  cbn [truthy negb hd].
  change (getitem (tag :: elements) 0) with (Ok (A:=list N) tag).
  cbn [mbind result_bind].
  destruct tag as [|c tag]; cbn [truthy negb].
  { eexists; split; [done|]. by rewrite !decide_False by distinct_literals. }
  destruct (decide (c :: tag = lit "ISA")) as [Hisa|Hisa].
  { rewrite isa_dict_ok. cbn [mbind result_bind].
    eexists; split; [done|]. split; [done|]. simpl. rewrite Hisa.
    by rewrite decide_False by distinct_literals. }
  destruct (decide (c :: tag = lit "GS")) as [Hgs|Hgs].
  { rewrite gs_dict_ok. cbn [mbind result_bind].
    eexists; split; [done|]. done. }
  repeat case_decide; repeat case_match; eexists; (split; [done|]); done.
Qed.

(** The loop: each dictionary comes from the last segment of its tag, and
    is left as it was when there is none. *)
Lemma parse_loop_headers sep segs st :
  ∃ st', for_each (parse_segment sep) segs st = Ok st'
    ∧ (Forall (λ s, first_element sep s ≠ lit "ISA") segs →
       st_isa st' = st_isa st)
    ∧ (∀ seg, last_with_tag sep (lit "ISA") segs seg →
       st_isa st' = isa_of (split sep seg))
    ∧ (Forall (λ s, first_element sep s ≠ lit "GS") segs →
       st_gs st' = st_gs st)
    ∧ (∀ seg, last_with_tag sep (lit "GS") segs seg →
       st_gs st' = gs_of (split sep seg)).
Proof.
  revert st. induction segs as [|s segs IH]; intros st.
  - exists st. split; [done|]. split; [done|]. split.
    + intros seg (before & after & H & _). by destruct before.
    + split; [done|]. intros seg (before & after & H & _). by destruct before.
  - destruct (parse_segment_headers sep st s) as (st1 & Hstep & Hisa & Hgs).
    destruct (IH st1) as (st' & Hloop & Hi0 & Hi1 & Hg0 & Hg1).
    exists st'. simpl. rewrite Hstep. cbn [mbind result_bind].
    split; [done|].
    assert (∀ tag seg, last_with_tag sep tag (s :: segs) seg →
              (seg = s ∧ first_element sep s = tag
               ∧ Forall (λ s, first_element sep s ≠ tag) segs)
              ∨ last_with_tag sep tag segs seg) as Hlast.
    { intros tag seg ([|b before] & after & Heq & Htag & Hafter);
        simpl in Heq; simplify_eq.
      - by left.
      - right. by exists before, after. }
    split; [|split; [|split]].
    + intros [Hs Hsegs]%Forall_cons. rewrite (Hi0 Hsegs), Hisa.
      by rewrite decide_False.
    + intros seg [(-> & Htag & Hafter)|Hin]%Hlast; [|by apply Hi1].
      rewrite (Hi0 Hafter), Hisa. by rewrite decide_True.
    + intros [Hs Hsegs]%Forall_cons. rewrite (Hg0 Hsegs), Hgs.
      by rewrite decide_False.
    + intros seg [(-> & Htag & Hafter)|Hin]%Hlast; [|by apply Hg1].
      rewrite (Hg0 Hafter), Hgs. by rewrite decide_True.
Qed.

(** A parse that returns ran the loop with the delimiter it reports. *)
Lemma parse_edi_loop text p :
  parse_edi text = Ok p →
  ∃ st, for_each (parse_segment (data_element (seps p))) (split tilde text)
          parse_init = Ok st
    ∧ isa p = st_isa st ∧ gs p = st_gs st ∧ inner_payload p = st_payload st.
Proof.
  unfold parse_edi.
  destruct (find_isa_segment text) as [seg|]; [|done]. cbn [mbind result_bind].
  destruct (getitem seg 3) as [d|]; [|done]. cbn [mbind result_bind].
  destruct (if decide (106 ≤ length seg) then getitem seg (-2) else Ok colon)
    as [sub|]; [|done].
  cbn [mbind result_bind].
  destruct (for_each _ _ parse_init) as [st|] eqn:Hloop; [|done].
  cbn [mbind result_bind]. intros [= <-]. by exists st.
Qed.

Lemma get_isa_of elements :
  get (isa_of elements) "sender_qualifier" = default [] (elements !! 5)
  ∧ get (isa_of elements) "sender_id" = strip (default [] (elements !! 6))
  ∧ get (isa_of elements) "receiver_qualifier" = default [] (elements !! 7)
  ∧ get (isa_of elements) "receiver_id" = strip (default [] (elements !! 8))
  ∧ get (isa_of elements) "control_number" = default [] (elements !! 13).
Proof. unfold get, isa_of. repeat split; by simplify_map_eq. Qed.

Lemma get_gs_of elements :
  get (gs_of elements) "gs01" = default [] (elements !! 1)
  ∧ get (gs_of elements) "gs02" = default [] (elements !! 2)
  ∧ get (gs_of elements) "gs03" = default [] (elements !! 3).
Proof. unfold get, gs_of. repeat split; by simplify_map_eq. Qed.

(** The two dictionaries of a parsed document, from the segments. *)
Lemma parse_edi_headers text p :
  parse_edi text = Ok p →
  (Forall (λ s, first_element (data_element (seps p)) s ≠ lit "ISA")
     (split tilde text) → isa p = ∅)
  ∧ (∀ seg, last_with_tag (data_element (seps p)) (lit "ISA")
              (split tilde text) seg →
       isa p = isa_of (split (data_element (seps p)) seg))
  ∧ (Forall (λ s, first_element (data_element (seps p)) s ≠ lit "GS")
       (split tilde text) → gs p = ∅)
  ∧ (∀ seg, last_with_tag (data_element (seps p)) (lit "GS")
              (split tilde text) seg →
       gs p = gs_of (split (data_element (seps p)) seg)).
Proof.
  intros (st & Hloop & -> & -> & _)%parse_edi_loop.
  destruct (parse_loop_headers (data_element (seps p)) (split tilde text)
              parse_init) as (st' & Hloop' & Hi0 & Hi1 & Hg0 & Hg1).
  assert (st' = st) as -> by congruence. done.
Qed.

Lemma exists_last_with_tag delim tag segs :
  Exists (λ s, first_element delim s = tag) segs →
  ∃ seg, last_with_tag delim tag segs seg.
Proof.
  induction segs as [|s segs IH]; [by intros ?%Exists_nil|].
  intros Hex.
  destruct (decide (Exists (λ s, first_element delim s = tag) segs))
    as [Hlater|Hnone].
  - destruct (IH Hlater) as (seg & before & after & -> & Htag & Hafter).
    exists seg, (s :: before), after. by repeat split.
  - apply Exists_cons in Hex as [Hs|Hlater]; [|done].
    exists s, [], segs. split; [done|]. split; [done|].
    apply not_Exists_Forall in Hnone; [|apply _].
    eapply Forall_impl; [exact Hnone|]. by intros x Hx.
Qed.

(** X1: the interchange header of a parsed document is read from the last
    segment whose first element is ISA: the qualifiers are its elements 5
    and 7, the identifiers its elements 6 and 8 with surrounding white
    space removed, the control number its element 13, and an element the
    segment does not have reads as the empty string. *)
Theorem header_from_last_isa_segment (text : str) (p : parsed) (seg : str) :
  parse_edi text = Ok p →
  last_with_tag (data_element (seps p)) (lit "ISA") (split tilde text) seg →
  get (isa p) "sender_qualifier"
  = default [] (split (data_element (seps p)) seg !! 5)
  ∧ get (isa p) "sender_id"
    = strip (default [] (split (data_element (seps p)) seg !! 6))
  ∧ get (isa p) "receiver_qualifier"
    = default [] (split (data_element (seps p)) seg !! 7)
  ∧ get (isa p) "receiver_id"
    = strip (default [] (split (data_element (seps p)) seg !! 8))
  ∧ get (isa p) "control_number"
    = default [] (split (data_element (seps p)) seg !! 13).
Proof.
  intros Hp Hseg.
  destruct (parse_edi_headers text p Hp) as (_ & Hisa & _).
  rewrite (Hisa seg Hseg). apply get_isa_of.
Qed.

(** X2: the functional group header of a parsed document is read from the
    last segment whose first element is GS: its elements 1, 2 and 3, the
    empty string for an element the segment does not have. *)
Theorem group_from_last_gs_segment (text : str) (p : parsed) (seg : str) :
  parse_edi text = Ok p →
  last_with_tag (data_element (seps p)) (lit "GS") (split tilde text) seg →
  get (gs p) "gs01" = default [] (split (data_element (seps p)) seg !! 1)
  ∧ get (gs p) "gs02" = default [] (split (data_element (seps p)) seg !! 2)
  ∧ get (gs p) "gs03" = default [] (split (data_element (seps p)) seg !! 3).
Proof.
  intros Hp Hseg.
  destruct (parse_edi_headers text p Hp) as (_ & _ & _ & Hgs).
  rewrite (Hgs seg Hseg). apply get_gs_of.
Qed.

Lemma header_from_last_isa_segment_witness :
  ∃ p seg,
    parse_edi sample_order = Ok p
    ∧ last_with_tag (data_element (seps p)) (lit "ISA")
        (split tilde sample_order) seg
    ∧ get (isa p) "sender_qualifier"
      = default [] (split (data_element (seps p)) seg !! 5).
Proof.
  destruct (succeeds_Ok (parse_edi sample_order)) as [p Hp];
    [vm_compute; reflexivity|].
  assert ((p ← parse_edi sample_order; Ok (data_element (seps p)))
          = Ok (chr "*")) as Hdelim by (vm_compute; reflexivity).
  rewrite Hp in Hdelim. cbn [mbind result_bind] in Hdelim.
  injection Hdelim as Hdelim.
  assert (last_with_tag (data_element (seps p)) (lit "ISA")
            (split tilde sample_order)
            (hd [] (split tilde sample_order))) as Hlast.
  { rewrite Hdelim. exists [], (tail (split tilde sample_order)).
    split; [vm_compute; reflexivity|]. split; [vm_compute; reflexivity|].
    apply (bool_decide_unpack _). vm_compute. exact I. }
  exists p, (hd [] (split tilde sample_order)).
  split; [exact Hp|]. split; [exact Hlast|].
  exact (proj1 (header_from_last_isa_segment sample_order p _ Hp Hlast)).
Defined.

Lemma group_from_last_gs_segment_witness :
  ∃ p seg,
    parse_edi sample_order = Ok p
    ∧ last_with_tag (data_element (seps p)) (lit "GS")
        (split tilde sample_order) seg
    ∧ get (gs p) "gs01"
      = default [] (split (data_element (seps p)) seg !! 1).
Proof.
  destruct (succeeds_Ok (parse_edi sample_order)) as [p Hp];
    [vm_compute; reflexivity|].
  assert ((p ← parse_edi sample_order; Ok (data_element (seps p)))
          = Ok (chr "*")) as Hdelim by (vm_compute; reflexivity).
  rewrite Hp in Hdelim. cbn [mbind result_bind] in Hdelim.
  injection Hdelim as Hdelim.
  assert (last_with_tag (data_element (seps p)) (lit "GS")
            (split tilde sample_order)
            (default [] (split tilde sample_order !! 1))) as Hlast.
  { rewrite Hdelim.
    exists (take 1 (split tilde sample_order)),
           (drop 2 (split tilde sample_order)).
    split; [vm_compute; reflexivity|]. split; [vm_compute; reflexivity|].
    apply (bool_decide_unpack _). vm_compute. exact I. }
  exists p, (default [] (split tilde sample_order !! 1)).
  split; [exact Hp|]. split; [exact Hlast|].
  exact (proj1 (group_from_last_gs_segment sample_order p _ Hp Hlast)).
Defined.

(** ** The shape of the header dictionaries *)

Lemma first_element_free delim seg : delim ∉ first_element delim seg.
Proof.
  unfold first_element. pose proof (split_free delim seg) as Hfree.
  destruct (split delim seg) as [|w ws]; [apply not_elem_of_nil|].
  by apply Forall_cons in Hfree as [? _].
Qed.

(** The segment the delimiter is read from has the tag ISA unless the
    delimiter is one of the letters of the tag. *)
Lemma first_isa_segment_tag text seg delim :
  first_isa_segment text seg → seg !! 3 = Some delim → delim ∉ lit "ISA" →
  seg ∈ split tilde text ∧ first_element delim seg = lit "ISA".
Proof.
  intros (before & after & Hsplit & _ & [k ->]) Hdelim Hfree.
  split.
  { rewrite Hsplit. apply elem_of_app. right. apply elem_of_cons. by left. }
  destruct k as [|d k]; [done|]. simpl in Hdelim. simplify_eq.
  unfold first_element. rewrite split_app_sep.
  by rewrite split_free_id.
Qed.

Lemma dom_isa_of elements :
  dom (isa_of elements)
  = list_to_set ["sender_qualifier"; "sender_id"; "receiver_qualifier";
                 "receiver_id"; "control_number"].
Proof. unfold isa_of. rewrite !dom_insert_L, dom_empty_L. done. Qed.

Lemma dom_gs_of elements :
  dom (gs_of elements) = list_to_set ["gs01"; "gs02"; "gs03"].
Proof. unfold gs_of. rewrite !dom_insert_L, dom_empty_L. done. Qed.

(** A parse that returns found its delimiter at position 3 of the first
    segment that begins with ISA. *)
Lemma parse_edi_delimiter text p :
  parse_edi text = Ok p →
  ∃ seg, first_isa_segment text seg ∧ seg !! 3 = Some (data_element (seps p)).
Proof.
  intros Hp.
  destruct (parse_edi_cases text)
    as [[_ H]|[(seg & _ & _ & H)|(seg & p' & Hseg & Hlen & _)]];
    [congruence..|].
  destruct (parse_edi_found text seg Hseg Hlen)
    as (p'' & delim & Hp'' & Hd & Hde & _).
  assert (p'' = p) as -> by congruence.
  exists seg. by rewrite Hde.
Qed.

(** X3: the interchange header of a parsed document has its five keys
    unless the element delimiter is one of the letters I, S, A, and then it
    is empty; the group header is empty or has its three keys. *)
Theorem header_dictionaries_shape (text : str) (p : parsed) :
  parse_edi text = Ok p →
  (data_element (seps p) ∉ lit "ISA" →
   dom (isa p)
   = list_to_set ["sender_qualifier"; "sender_id"; "receiver_qualifier";
                  "receiver_id"; "control_number"])
  ∧ (data_element (seps p) ∈ lit "ISA" → isa p = ∅)
  ∧ (gs p = ∅ ∨ dom (gs p) = list_to_set ["gs01"; "gs02"; "gs03"]).
Proof.
  intros Hp.
  destruct (parse_edi_headers text p Hp) as (Hi0 & Hi1 & Hg0 & Hg1).
  split; [|split].
  - intros Hfree.
    destruct (parse_edi_delimiter text p Hp) as (seg & Hseg & Hd).
    destruct (first_isa_segment_tag text seg _ Hseg Hd Hfree) as [Hin Htag].
    destruct (exists_last_with_tag (data_element (seps p)) (lit "ISA")
                (split tilde text)) as [seg' Hlast].
    { apply Exists_exists. by exists seg. }
    rewrite (Hi1 seg' Hlast). apply dom_isa_of.
  - intros Hin. apply Hi0. apply Forall_forall. intros s _ Htag.
    apply (first_element_free (data_element (seps p)) s). by rewrite Htag.
  - destruct (decide (Exists (λ s, first_element (data_element (seps p)) s
                                   = lit "GS") (split tilde text)))
      as [Hex|Hno].
    + right. destruct (exists_last_with_tag _ _ _ Hex) as [seg Hlast].
      rewrite (Hg1 seg Hlast). apply dom_gs_of.
    + left. apply Hg0. apply not_Exists_Forall in Hno; [|apply _].
      eapply Forall_impl; [exact Hno|]. by intros x Hx.
Qed.

Lemma header_dictionaries_shape_witness :
  ∃ p, parse_edi sample_order = Ok p
    ∧ dom (isa p)
      = list_to_set ["sender_qualifier"; "sender_id"; "receiver_qualifier";
                     "receiver_id"; "control_number"].
Proof.
  destruct (succeeds_Ok (parse_edi sample_order)) as [p Hp];
    [vm_compute; reflexivity|].
  assert ((p ← parse_edi sample_order; Ok (data_element (seps p)))
          = Ok (chr "*")) as Hdelim by (vm_compute; reflexivity).
  rewrite Hp in Hdelim. cbn [mbind result_bind] in Hdelim.
  injection Hdelim as Hdelim.
  exists p. split; [exact Hp|].
  apply (header_dictionaries_shape sample_order p Hp).
  rewrite Hdelim. apply (bool_decide_unpack _). vm_compute. exact I.
Defined.

(** ** Trimmed identifiers *)

Lemma lstrip_head s c : head (lstrip s) = Some c → isspace c = false.
Proof.
  induction s as [|d s IH]; [done|]. simpl.
  destruct (isspace d) eqn:Hd; [done|]. simpl. by intros [= <-].
Qed.

Lemma lstrip_suffix s : lstrip s `suffix_of` s.
Proof.
  induction s as [|d s IH]; [done|]. simpl.
  destruct (isspace d); [by apply suffix_cons_r|done].
Qed.

Lemma last_suffix {A} (l1 l2 : list A) x :
  l1 `suffix_of` l2 → last l1 = Some x → last l2 = Some x.
Proof.
  intros [k ->] Hlast. rewrite last_app, Hlast. done.
Qed.

Lemma strip_trimmed s : trimmed (strip s).
Proof.
  unfold trimmed, strip.
  split; intros c.
  - rewrite !rev_alt. fold (reverse (lstrip (rev_append (lstrip s) []))).
    fold (reverse (lstrip s)).
    rewrite head_reverse. intros Hlast.
    apply (last_suffix _ _ _ (lstrip_suffix _)) in Hlast.
    rewrite last_reverse in Hlast. by apply lstrip_head in Hlast.
  - rewrite !rev_alt. fold (reverse (lstrip (rev_append (lstrip s) []))).
    rewrite last_reverse. apply lstrip_head.
Qed.

(** The header of a parsed document is empty or was read from a segment. *)
Lemma isa_empty_or_read text p :
  parse_edi text = Ok p → isa p = ∅ ∨ ∃ elements, isa p = isa_of elements.
Proof.
  intros Hp.
  destruct (parse_edi_headers text p Hp) as (Hi0 & Hi1 & _).
  destruct (decide (Exists (λ s, first_element (data_element (seps p)) s
                                 = lit "ISA") (split tilde text)))
    as [Hex|Hno].
  - right. destruct (exists_last_with_tag _ _ _ Hex) as [seg Hlast].
    eexists. by apply Hi1.
  - left. apply Hi0. apply not_Exists_Forall in Hno; [|apply _].
    eapply Forall_impl; [exact Hno|]. by intros x Hx.
Qed.

(** X4: the sender and receiver identifiers of a parsed document neither
    begin nor end with white space. *)
Theorem identifiers_are_trimmed (text : str) (p : parsed) :
  parse_edi text = Ok p →
  trimmed (get (isa p) "sender_id") ∧ trimmed (get (isa p) "receiver_id").
Proof.
  intros [->|[elements ->]]%isa_empty_or_read.
  - by split; split.
  - destruct (get_isa_of elements) as (_ & -> & _ & -> & _).
    split; apply strip_trimmed.
Qed.

Lemma identifiers_are_trimmed_witness :
  ∃ p, parse_edi sample_order = Ok p
    ∧ trimmed (get (isa p) "sender_id")
    ∧ trimmed (get (isa p) "receiver_id").
Proof.
  destruct (succeeds_Ok (parse_edi sample_order)) as [p Hp];
    [vm_compute; reflexivity|].
  exists p. split; [exact Hp|].
  exact (identifiers_are_trimmed sample_order p Hp).
Defined.

(** ** The errors of the parser *)

(** X5: the parser raises nothing but the missing-envelope error and the
    index error, and it raises the index error exactly when the first
    segment that begins with ISA is the bare tag. *)
Theorem parse_edi_errors (text : str) :
  (∀ e, parse_edi text = Raise e → e = MissingEnvelopeError ∨ e = IndexError)
  ∧ (parse_edi text = Raise IndexError ↔ first_isa_segment text (lit "ISA")).
Proof.
  split.
  - intros e He.
    destruct (parse_edi_cases text)
      as [[_ H]|[(seg & _ & _ & H)|(seg & p' & _ & _ & H)]];
      [left|right|]; congruence.
  - split.
    + intros He.
      destruct (parse_edi_cases text)
        as [[_ H]|[(seg & Hseg & Hlen & _)|(seg & p' & _ & _ & H)]];
        [unfold MissingEnvelopeError in H; congruence| |congruence].
      assert (seg = lit "ISA") as <-; [|done].
      destruct Hseg as (_ & _ & _ & _ & [k ->]).
      rewrite length_app in Hlen. destruct k; [by rewrite app_nil_r|].
      simpl in Hlen. lia.
    + intros Hseg. apply (parse_edi_short text (lit "ISA") Hseg).
      simpl. lia.
Qed.

Lemma parse_edi_errors_witness :
  first_isa_segment bare_isa (lit "ISA")
  ∧ parse_edi bare_isa = Raise IndexError.
Proof.
  assert (first_isa_segment bare_isa (lit "ISA")) as Hfirst.
  { apply find_isa_segment_ok. vm_compute; reflexivity. }
  split; [exact Hfirst|].
  exact (proj2 (proj2 (parse_edi_errors bare_isa)) Hfirst).
Defined.

(** ** The payload *)

Lemma captured_payload_sublist delim capture segs :
  captured_payload delim capture segs `sublist_of` segs.
Proof.
  revert capture. induction segs as [|seg segs IH]; intros capture; simpl.
  - constructor.
  - destruct (decide (first_element delim seg = lit "ST"));
      [apply sublist_cons, IH|].
    destruct (decide (first_element delim seg = lit "SE"));
      [apply sublist_cons, IH|].
    destruct (_ && _ && _); [apply sublist_skip|apply sublist_cons]; apply IH.
Qed.

Lemma captured_payload_tags delim capture segs :
  Forall (λ seg,
            first_element delim seg ≠ []
            ∧ first_element delim seg ≠ lit "ISA"
            ∧ first_element delim seg ≠ lit "GS"
            ∧ first_element delim seg ≠ lit "ST"
            ∧ first_element delim seg ≠ lit "SE")
    (captured_payload delim capture segs).
Proof.
  revert capture. induction segs as [|seg segs IH]; intros capture; simpl.
  - constructor.
  - destruct (decide (first_element delim seg = lit "ST")) as [|Hst];
      [apply IH|].
    destruct (decide (first_element delim seg = lit "SE")) as [|Hse];
      [apply IH|].
    destruct (_ && _ && _) eqn:Hkeep; [|apply IH].
    apply andb_prop in Hkeep as [[_ Htag]%andb_prop Hnot].
    apply bool_decide_eq_true in Hnot as [? ?].
    constructor; [|apply IH].
    repeat split; try done. by destruct (first_element delim seg).
Qed.

Lemma captured_payload_no_start delim segs :
  Forall (λ seg, first_element delim seg ≠ lit "ST") segs →
  captured_payload delim false segs = [].
Proof.
  induction 1 as [|seg segs Hseg _ IH]; simpl; [done|].
  rewrite decide_False by done.
  by destruct (decide (first_element delim seg = lit "SE")).
Qed.

Lemma parse_edi_payload text p :
  parse_edi text = Ok p →
  inner_payload p
  = captured_payload (data_element (seps p)) false (split tilde text).
Proof.
  intros (st & Hloop & _ & _ & ->)%parse_edi_loop.
  destruct (parse_loop_payload (data_element (seps p)) (split tilde text)
              parse_init) as (st' & Hloop' & Hpay).
  assert (st' = st) as -> by congruence. by rewrite Hpay.
Qed.

(** X6: the payload of a parsed document is a subsequence of its segments:
    the kept segments appear in their original order, none is empty or
    contains the segment delimiter, and none has an empty first element or
    one of the tags ISA, GS, ST, SE. *)
Theorem payload_is_subsequence (text : str) (p : parsed) :
  parse_edi text = Ok p →
  inner_payload p `sublist_of` split tilde text
  ∧ Forall (λ seg,
              seg ≠ [] ∧ (tilde ∉ seg)
              ∧ first_element (data_element (seps p)) seg ≠ []
              ∧ first_element (data_element (seps p)) seg ≠ lit "ISA"
              ∧ first_element (data_element (seps p)) seg ≠ lit "GS"
              ∧ first_element (data_element (seps p)) seg ≠ lit "ST"
              ∧ first_element (data_element (seps p)) seg ≠ lit "SE")
      (inner_payload p).
Proof.
  intros Hp. rewrite (parse_edi_payload text p Hp).
  pose proof (captured_payload_sublist (data_element (seps p)) false
                (split tilde text)) as Hsub.
  split; [done|].
  pose proof (captured_payload_tags (data_element (seps p)) false
                (split tilde text)) as Htags.
  pose proof (split_free tilde text) as Hfree.
  apply Forall_forall. intros seg Hin.
  rewrite Forall_forall in Htags, Hfree.
  destruct (Htags seg Hin) as (Hne & ? & ? & ? & ?).
  repeat split; try done; [|by eapply Hfree, elem_of_sublist].
  intros ->. by apply Hne.
Qed.

Lemma payload_is_subsequence_witness :
  ∃ p, parse_edi sample_order = Ok p
    ∧ inner_payload p `sublist_of` split tilde sample_order.
Proof.
  destruct (succeeds_Ok (parse_edi sample_order)) as [p Hp];
    [vm_compute; reflexivity|].
  exists p. split; [exact Hp|].
  exact (proj1 (payload_is_subsequence sample_order p Hp)).
Defined.

(** X7: a parsed document none of whose segments has the first element ST
    has an empty payload. *)
Theorem no_transaction_no_payload (text : str) (p : parsed) :
  parse_edi text = Ok p →
  Forall (λ seg, first_element (data_element (seps p)) seg ≠ lit "ST")
    (split tilde text) →
  inner_payload p = [].
Proof.
  intros Hp Hno. rewrite (parse_edi_payload text p Hp).
  by apply captured_payload_no_start.
Qed.

Lemma no_transaction_no_payload_witness :
  ∃ p, parse_edi no_transaction = Ok p ∧ inner_payload p = [].
Proof.
  destruct (succeeds_Ok (parse_edi no_transaction)) as [p Hp];
    [vm_compute; reflexivity|].
  assert ((p ← parse_edi no_transaction; Ok (data_element (seps p)))
          = Ok (chr "*")) as Hdelim by (vm_compute; reflexivity).
  rewrite Hp in Hdelim. cbn [mbind result_bind] in Hdelim.
  injection Hdelim as Hdelim.
  exists p. split; [exact Hp|].
  apply (no_transaction_no_payload no_transaction p Hp).
  rewrite Hdelim. apply (bool_decide_unpack _). vm_compute. exact I.
Defined.

(** ** What masking changes *)

Lemma hidden_refl s : hidden s s.
Proof. apply Forall2_same_length_lookup_2; [done|]. intros; simplify_eq; by left. Qed.

Lemma hidden_masked e : hidden e (masked e).
Proof.
  unfold hidden, masked, times. induction e as [|c e IH]; simpl; constructor;
    [by right|done].
Qed.

Lemma hidden_app s1 s1' s2 s2' :
  hidden s1 s1' → hidden s2 s2' → hidden (s1 ++ s2) (s1' ++ s2').
Proof. apply Forall2_app. Qed.

Lemma hidden_alter elements elements' i :
  Forall2 hidden elements elements' →
  Forall2 hidden elements (alter masked i elements').
Proof.
  intros H. revert i. induction H as [|e e' els els' He Hels IH]; intros i;
    [constructor|].
  destruct i as [|i]; simpl.
  - constructor; [|done].
    replace (masked e') with (masked e); [apply hidden_masked|].
    unfold masked. by rewrite (Forall2_length _ _ _ He).
  - constructor; [done|apply IH].
Qed.

Lemma hidden_join sep elements elements' :
  Forall2 hidden elements elements' →
  hidden (join sep elements) (join sep elements').
Proof.
  induction 1 as [|e e' els els' He Hels IH]; [constructor|].
  destruct Hels as [|e2 e2' els els' He2 Hels]; [done|].
  change (hidden (e ++ sep :: join sep (e2 :: els))
                 (e' ++ sep :: join sep (e2' :: els'))).
  apply hidden_app; [done|]. constructor; [by left|done].
Qed.

Lemma hidden_mask_one sep seg : hidden seg (mask_one sep seg).
Proof.
  unfold mask_one. rewrite <- (join_split sep seg) at 1.
  apply hidden_join. unfold mask_pure.
  assert (Forall2 hidden (split sep seg) (split sep seg)) as Hrefl.
  { apply Forall2_same_length_lookup_2; [done|].
    intros; simplify_eq; apply hidden_refl. }
  repeat case_decide; auto using hidden_alter.
Qed.

(** X8: masking returns one segment per segment of the payload, each of the
    length of the original, and differing from it only where the original
    character has been replaced by [#]. *)
Theorem masking_only_hides (payload : list str) (data_element_sep : char) :
  ∃ out,
    mask_dates_times payload data_element_sep = Ok out
    ∧ Forall2 hidden payload out
    ∧ map length out = map length payload.
Proof.
  exists (map (mask_one data_element_sep) payload).
  split; [apply mask_dates_times_ok|].
  assert (Forall2 hidden payload (map (mask_one data_element_sep) payload))
    as Hhidden.
  { apply Forall2_fmap_r, Forall2_same_length_lookup_2; [done|].
    intros; simplify_eq. apply hidden_mask_one. }
  split; [done|].
  rewrite map_map. apply map_ext. intros seg. symmetry.
  apply (Forall2_length _ _ _ (hidden_mask_one data_element_sep seg)).
Qed.

Lemma first_element_mask_one sep seg :
  first_element sep (mask_one sep seg) = first_element sep seg.
Proof.
  unfold first_element, mask_one.
  pose proof (split_nonempty sep seg) as Hne.
  pose proof (split_free sep seg) as Hfree.
  pose proof (mask_pure_hd (hd [] (split sep seg)) (split sep seg)) as Hhd.
  pose proof (mask_pure_length (hd [] (split sep seg)) (split sep seg)) as Hlen.
  destruct (split sep seg) as [|a0 rest]; [done|].
  destruct (mask_pure _ (a0 :: rest)) as [|b0 rest']; [done|].
  simpl in Hhd. subst b0. simpl.
  apply hd_split_join. by apply Forall_cons in Hfree as [? _].
Qed.

Lemma split_mask_one sep seg :
  sep ≠ hash →
  split sep (mask_one sep seg)
  = mask_pure (first_element sep seg) (split sep seg).
Proof.
  intros Hsep. unfold mask_one, first_element.
  apply split_join.
  - intros Hnil. apply (f_equal length) in Hnil.
    rewrite mask_pure_length in Hnil.
    pose proof (split_nonempty sep seg). by destruct (split sep seg).
  - apply mask_pure_free; [done|apply split_free].
Qed.

(** X9: masking keeps the tag of every segment, and for a delimiter other
    than [#] it keeps the number of elements of every segment. *)
Theorem masking_keeps_structure (payload : list str) (data_element_sep : char) :
  ∃ out,
    mask_dates_times payload data_element_sep = Ok out
    ∧ map (first_element data_element_sep) out
      = map (first_element data_element_sep) payload
    ∧ (data_element_sep ≠ hash →
       map (λ seg, length (split data_element_sep seg)) out
       = map (λ seg, length (split data_element_sep seg)) payload).
Proof.
  exists (map (mask_one data_element_sep) payload).
  split; [apply mask_dates_times_ok|]. split.
  - rewrite map_map. apply map_ext. intros seg. apply first_element_mask_one.
  - intros Hsep. rewrite map_map. apply map_ext. intros seg.
    by rewrite split_mask_one, mask_pure_length.
Qed.

Lemma masking_keeps_structure_witness :
  ∃ out,
    mask_dates_times [lit "DTM*011*20240101"] (chr "*") = Ok out
    ∧ map (λ seg, length (split (chr "*") seg)) out = [3].
Proof.
  destruct (masking_keeps_structure [lit "DTM*011*20240101"] (chr "*"))
    as (out & Hout & _ & Hcount).
  exists out. split; [exact Hout|].
  rewrite Hcount; [vm_compute; reflexivity|].
  vm_compute. discriminate.
Defined.

(** The masked elements depend on the lengths of the originals only. *)
Lemma mask_pure_same tag elements1 elements2 :
  (∀ i, i ∉ masked_positions tag → elements1 !! i = elements2 !! i) →
  (∀ i, length <$> elements1 !! i = length <$> elements2 !! i) →
  mask_pure tag elements1 = mask_pure tag elements2.
Proof.
  intros Hsame Hlen.
  assert (∀ i, masked <$> elements1 !! i = masked <$> elements2 !! i) as Hm.
  { intros i. specialize (Hlen i). unfold masked.
    destruct (elements1 !! i), (elements2 !! i); simpl in *; congruence. }
  unfold mask_pure, masked_positions in *.
  destruct (decide (tag = lit "BEG")).
  - apply list_eq. intros i. destruct (decide (i = 5)) as [->|Hi].
    + by rewrite !list_lookup_alter_eq.
    + rewrite !list_lookup_alter_ne by done. apply Hsame.
      by intros ->%list_elem_of_singleton.
  - destruct (decide (tag = lit "DTM")).
    + apply list_eq. intros i.
      destruct (decide (i = 3)) as [->|Hi3].
      { rewrite !list_lookup_alter_eq. rewrite !list_lookup_alter_ne by done.
        apply Hm. }
      rewrite !(list_lookup_alter_ne _ _ 3) by done.
      destruct (decide (i = 2)) as [->|Hi2].
      { by rewrite !list_lookup_alter_eq. }
      rewrite !list_lookup_alter_ne by done. apply Hsame.
      intros [->|[->|?%elem_of_nil]%elem_of_cons]%elem_of_cons; done.
    + apply list_eq. intros i. apply Hsame. apply not_elem_of_nil.
Qed.

(** X10: two segments with the same tag whose elements differ only at the
    positions masked for that tag (5 for BEG, 2 and 3 for DTM), and there
    only by values of the same length, have the same masked text. *)
Theorem same_length_values_mask_alike
    (data_element_sep : char) (elements1 elements2 : list str) :
  elements1 ≠ [] →
  Forall (λ e, data_element_sep ∉ e) elements1 →
  Forall (λ e, data_element_sep ∉ e) elements2 →
  (∀ i, i ∉ masked_positions (hd [] elements1) →
        elements1 !! i = elements2 !! i) →
  (∀ i, length <$> elements1 !! i = length <$> elements2 !! i) →
  mask_dates_times [join data_element_sep elements1] data_element_sep
  = mask_dates_times [join data_element_sep elements2] data_element_sep.
Proof.
  intros Hne Hfree1 Hfree2 Hsame Hlen.
  assert (hd [] elements2 = hd [] elements1) as Hhd.
  { assert (0 ∉ masked_positions (hd [] elements1)) as H0.
    { unfold masked_positions.
      repeat case_decide; apply (bool_decide_unpack _); vm_compute; exact I. }
    specialize (Hsame 0 H0). destruct elements1, elements2; simpl in *;
      by simplify_eq. }
  assert (elements2 ≠ []) as Hne2.
  { specialize (Hlen 0). destruct elements1, elements2; done. }
  rewrite !mask_dates_times_ok. simpl. unfold mask_one.
  rewrite !split_join by done. rewrite Hhd.
  by rewrite (mask_pure_same _ elements1 elements2).
Qed.

Lemma same_length_values_mask_alike_witness :
  mask_dates_times [lit "DTM*011*20240101*1200"] (chr "*")
  = mask_dates_times [lit "DTM*011*20251231*0930"] (chr "*").
Proof.
  apply (same_length_values_mask_alike (chr "*")
           [lit "DTM"; lit "011"; lit "20240101"; lit "1200"]
           [lit "DTM"; lit "011"; lit "20251231"; lit "0930"]).
  - discriminate.
  - apply (bool_decide_unpack _). vm_compute. exact I.
  - apply (bool_decide_unpack _). vm_compute. exact I.
  - intros [|[|[|[|i]]]] Hi; try reflexivity; exfalso; apply Hi;
      apply (bool_decide_unpack _); vm_compute; exact I.
  - intros [|[|[|[|i]]]]; reflexivity.
Defined.

(** ** The pair comparator as a relation between documents *)

Lemma all_equal_sym d1 d2 fields :
  all_equal d1 d2 fields = all_equal d2 d1 fields.
Proof.
  unfold all_equal. induction fields as [|k fields IH]; [done|]. simpl.
  rewrite IH. f_equal. apply bool_decide_ext. split; congruence.
Qed.

Lemma all_equal_trans d1 d2 d3 fields :
  all_equal d1 d2 fields = true → all_equal d2 d3 fields = true →
  all_equal d1 d3 fields = true.
Proof.
  rewrite !all_equal_spec. intros H12 H23 k Hk.
  by rewrite (H12 k Hk), (H23 k Hk).
Qed.

Section ComparatorRelation.

Variable generate_summary_html_report :
  list N → list N → gmap string (list N) → gmap string (list N) →
  gmap string (list N) → gmap string (list N) → bool → bool → bool →
  list N → list N → list N → list N → result (list N).
Variable generate_diff_html :
  list N → list N → list N → list N → result (list N).

#[local] Abbreviation compare :=
  (compare_pair generate_summary_html_report generate_diff_html).
#[local] Abbreviation summary :=
  (summary_call generate_summary_html_report).
#[local] Abbreviation original_diff_of :=
  (original_diff_call generate_diff_html).
#[local] Abbreviation masked_diff_of :=
  (masked_diff_call generate_diff_html).

Lemma compare_pair_returns n1 n2 t1 t2 c :
  compare n1 n2 t1 t2 = Ok c →
  ∃ p1 p2, parse_edi t1 = Ok p1 ∧ parse_edi t2 = Ok p2.
Proof.
  unfold compare_pair.
  destruct (parse_edi t1) as [p1|]; [|done].
  destruct (parse_edi t2) as [p2|]; [|done]. eauto.
Qed.

(** X11: the comparison raises the parse error of the first document, and
    that of the second only when the first parses; when both parse it
    returns exactly when its three renderer calls return, and otherwise it
    raises the error of the first call that fails, in the order summary,
    diff of the texts, diff of the masked payloads. *)
Theorem compare_pair_outcome (n1 n2 t1 t2 : str) :
  (∀ e, parse_edi t1 = Raise e → compare n1 n2 t1 t2 = Raise e)
  ∧ (∀ p1 e, parse_edi t1 = Ok p1 → parse_edi t2 = Raise e →
       compare n1 n2 t1 t2 = Raise e)
  ∧ (∀ p1 p2, parse_edi t1 = Ok p1 → parse_edi t2 = Ok p2 →
       succeeds (compare n1 n2 t1 t2)
       = succeeds (summary n1 n2 p1 p2)
         && succeeds (original_diff_of n1 n2 t1 t2)
         && succeeds (masked_diff_of n1 n2 p1 p2)
       ∧ (∀ e, summary n1 n2 p1 p2 = Raise e →
            compare n1 n2 t1 t2 = Raise e)
       ∧ (∀ s e, summary n1 n2 p1 p2 = Ok s →
            original_diff_of n1 n2 t1 t2 = Raise e →
            compare n1 n2 t1 t2 = Raise e)
       ∧ (∀ s d e, summary n1 n2 p1 p2 = Ok s →
            original_diff_of n1 n2 t1 t2 = Ok d →
            masked_diff_of n1 n2 p1 p2 = Raise e →
            compare n1 n2 t1 t2 = Raise e)).
Proof.
  split; [|split].
  - intros e He. by apply compare_pair_first_fails.
  - intros p1 e H1 H2. by eapply compare_pair_second_fails.
  - intros p1 p2 H1 H2. split; [by apply compare_pair_succeeds|].
    rewrite (compare_pair_unfold _ _ n1 n2 t1 t2 p1 p2 H1 H2).
    split; [|split].
    + by intros e ->.
    + by intros s e -> ->.
    + by intros s d e -> -> ->.
Qed.

(** X12: the verdicts are symmetric: when the comparison of two documents
    returns and the comparison the other way round returns too, the two
    results have the same three booleans. *)
Theorem compare_pair_symmetric (n1 n2 t1 t2 : str) (c c' : comparison) :
  compare n1 n2 t1 t2 = Ok c →
  compare n2 n1 t2 t1 = Ok c' →
  isa_match c' = isa_match c
  ∧ gs_match c' = gs_match c
  ∧ masked_match c' = masked_match c.
Proof.
  intros Hc Hc'.
  destruct (compare_pair_returns _ _ _ _ _ Hc) as (p1 & p2 & H1 & H2).
  destruct (compare_pair_ok _ _ n1 n2 t1 t2 p1 p2 c H1 H2 Hc)
    as (Hi & Hg & Hm & _).
  destruct (compare_pair_ok _ _ n2 n1 t2 t1 p2 p1 c' H2 H1 Hc')
    as (Hi' & Hg' & Hm' & _).
  rewrite Hi, Hg, Hm, Hi', Hg', Hm'.
  split; [apply all_equal_sym|]. split; [apply all_equal_sym|].
  apply bool_decide_ext. split; congruence.
Qed.

(** X13: the verdicts are transitive: when the comparisons of a first
    document with a second, of the second with a third and of the first
    with the third all return, a check on which the first two results match
    is a check on which the third result matches. *)
Theorem compare_pair_transitive
    (n1 n2 n3 t1 t2 t3 : str) (c12 c23 c13 : comparison) :
  compare n1 n2 t1 t2 = Ok c12 →
  compare n2 n3 t2 t3 = Ok c23 →
  compare n1 n3 t1 t3 = Ok c13 →
  (isa_match c12 = true → isa_match c23 = true → isa_match c13 = true)
  ∧ (gs_match c12 = true → gs_match c23 = true → gs_match c13 = true)
  ∧ (masked_match c12 = true → masked_match c23 = true →
     masked_match c13 = true).
Proof.
  intros H12 H23 H13.
  destruct (compare_pair_returns _ _ _ _ _ H12) as (p1 & p2 & H1 & H2).
  destruct (compare_pair_returns _ _ _ _ _ H23) as (p2' & p3 & H2' & H3).
  assert (p2' = p2) as -> by congruence.
  destruct (compare_pair_ok _ _ n1 n2 t1 t2 p1 p2 c12 H1 H2 H12)
    as (Hi & Hg & Hm & _).
  destruct (compare_pair_ok _ _ n2 n3 t2 t3 p2 p3 c23 H2 H3 H23)
    as (Hi' & Hg' & Hm' & _).
  destruct (compare_pair_ok _ _ n1 n3 t1 t3 p1 p3 c13 H1 H3 H13)
    as (Hi13 & Hg13 & Hm13 & _).
  rewrite Hi, Hg, Hm, Hi', Hg', Hm', Hi13, Hg13, Hm13.
  split; [apply all_equal_trans|]. split; [apply all_equal_trans|].
  rewrite !bool_decide_eq_true. congruence.
Qed.

End ComparatorRelation.

Lemma compare_pair_outcome_witness :
  compare_pair no_summary_html no_diff_html
    (lit "a.edi") (lit "b.edi") bare_isa no_envelope
  = Raise IndexError
  ∧ compare_pair no_summary_html failing_diff_html
      (lit "a.edi") (lit "b.edi") sample_order sample_order_next_day
    = Raise RecursionError.
Proof.
  split.
  - apply (compare_pair_outcome no_summary_html no_diff_html).
    vm_compute. reflexivity.
  - destruct (succeeds_Ok (parse_edi sample_order)) as [p1 H1];
      [vm_compute; reflexivity|].
    destruct (succeeds_Ok (parse_edi sample_order_next_day)) as [p2 H2];
      [vm_compute; reflexivity|].
    destruct (compare_pair_outcome no_summary_html failing_diff_html
                (lit "a.edi") (lit "b.edi")
                sample_order sample_order_next_day) as (_ & _ & Hboth).
    destruct (Hboth p1 p2 H1 H2) as (_ & _ & Hdiff & _).
    apply (Hdiff []); reflexivity.
Defined.

Lemma compare_pair_symmetric_witness :
  ∃ c c',
    compare_pair no_summary_html no_diff_html
      (lit "a.edi") (lit "b.edi") star_delimited bar_delimited = Ok c
    ∧ compare_pair no_summary_html no_diff_html
        (lit "b.edi") (lit "a.edi") bar_delimited star_delimited = Ok c'
    ∧ masked_match c' = masked_match c.
Proof.
  destruct (succeeds_Ok
              (compare_pair no_summary_html no_diff_html
                 (lit "a.edi") (lit "b.edi") star_delimited bar_delimited))
    as [c Hc]; [vm_compute; reflexivity|].
  destruct (succeeds_Ok
              (compare_pair no_summary_html no_diff_html
                 (lit "b.edi") (lit "a.edi") bar_delimited star_delimited))
    as [c' Hc']; [vm_compute; reflexivity|].
  exists c, c'. split; [exact Hc|]. split; [exact Hc'|].
  exact (proj2 (proj2 (compare_pair_symmetric no_summary_html no_diff_html
                         _ _ _ _ c c' Hc Hc'))).
Defined.

Lemma compare_pair_transitive_witness :
  ∃ c12 c23 c13,
    compare_pair no_summary_html no_diff_html
      (lit "a.edi") (lit "b.edi") sample_order sample_order_next_day = Ok c12
    ∧ compare_pair no_summary_html no_diff_html
        (lit "b.edi") (lit "c.edi") sample_order_next_day sample_order = Ok c23
    ∧ compare_pair no_summary_html no_diff_html
        (lit "a.edi") (lit "c.edi") sample_order sample_order = Ok c13
    ∧ (masked_match c12 = true → masked_match c23 = true →
       masked_match c13 = true).
Proof.
  destruct (succeeds_Ok
              (compare_pair no_summary_html no_diff_html
                 (lit "a.edi") (lit "b.edi")
                 sample_order sample_order_next_day))
    as [c12 H12]; [vm_compute; reflexivity|].
  destruct (succeeds_Ok
              (compare_pair no_summary_html no_diff_html
                 (lit "b.edi") (lit "c.edi")
                 sample_order_next_day sample_order))
    as [c23 H23]; [vm_compute; reflexivity|].
  destruct (succeeds_Ok
              (compare_pair no_summary_html no_diff_html
                 (lit "a.edi") (lit "c.edi") sample_order sample_order))
    as [c13 H13]; [vm_compute; reflexivity|].
  exists c12, c23, c13. split; [exact H12|]. split; [exact H23|].
  split; [exact H13|].
  exact (proj2 (proj2 (compare_pair_transitive no_summary_html no_diff_html
                         _ _ _ _ _ _ c12 c23 c13 H12 H23 H13))).
Defined.

(** ** Reading an upload *)

Lemma remove_newlines_no_lf s : 10%N ∉ remove_newlines s.
Proof.
  assert (∀ n s, length s ≤ n → 10%N ∉ remove_newlines s) as H;
    [|by apply (H (length s))].
  clear s. induction n as [|n IH]; intros s Hlen.
  { destruct s; [apply not_elem_of_nil|simpl in Hlen; lia]. }
  destruct s as [|c s]; [apply not_elem_of_nil|]. simpl in *.
  destruct (N.eqb_spec c 10) as [->|Hc10]; [apply IH; lia|].
  destruct (N.eqb_spec c 13) as [->|Hc13].
  - destruct s as [|d s]; [by intros [?|?%elem_of_nil]%elem_of_cons|].
    destruct (N.eqb_spec d 10) as [->|Hd].
    + apply IH. simpl in Hlen. lia.
    + intros [?|Hin]%elem_of_cons; [done|]. revert Hin. apply IH. lia.
  - intros [?|Hin]%elem_of_cons; [done|]. revert Hin. apply IH. lia.
Qed.

Lemma remove_newlines_id s : 10%N ∉ s → remove_newlines s = s.
Proof.
  induction s as [|c s IH]; [done|]. intros Hfree.
  assert (c ≠ 10%N ∧ 10%N ∉ s) as [Hc Hs].
  { split; intros ?; apply Hfree; subst; [by left|by right]. }
  specialize (IH Hs). cbn [remove_newlines].
  destruct (N.eqb_spec c 10) as [|_]; [done|].
  destruct (N.eqb_spec c 13) as [->|_]; [|by rewrite IH].
  destruct s as [|d s]; [done|].
  destruct (N.eqb_spec d 10) as [->|_]; [|by rewrite IH].
  exfalso. apply Hs. by left.
Qed.

Lemma remove_newlines_plain l rest :
  Forall (λ c, c ≠ 10%N ∧ c ≠ 13%N) l →
  remove_newlines (l ++ rest) = l ++ remove_newlines rest.
Proof.
  induction 1 as [|c l [Hc10 Hc13] _ IH]; [done|].
  cbn [app remove_newlines].
  destruct (N.eqb_spec c 10); [done|]. destruct (N.eqb_spec c 13); [done|].
  by rewrite IH.
Qed.

Lemma decode_utf8_ascii bs :
  Forall (λ b, (b < 128)%N) bs → decode_utf8 bs = Ok bs.
Proof.
  induction 1 as [|b bs Hb _ IH]; [done|]. cbn [decode_utf8].
  destruct (N.ltb_spec b 128); [|lia]. by rewrite IH.
Qed.

(** X14: the text read from an upload never contains a line feed, and an
    ASCII upload without line feeds is read as it is, carriage returns
    included. *)
Theorem read_content_has_no_line_feed (f : uploaded_file) :
  (∀ text, read_content f = Ok text → 10%N ∉ text)
  ∧ (Forall (λ b, (Byte.to_N b < 128)%N ∧ Byte.to_N b ≠ 10%N) (getvalue f) →
     read_content f = Ok (map Byte.to_N (getvalue f))).
Proof.
  unfold read_content. split.
  - intros text. destruct (decode_utf8 _) as [s|]; [|done].
    cbn [mbind result_bind]. intros [= <-]. apply remove_newlines_no_lf.
  - intros Hplain. rewrite decode_utf8_ascii.
    + cbn [mbind result_bind]. f_equal. apply remove_newlines_id.
      intros Hin%list_elem_of_In%in_map_iff. destruct Hin as (b & Hb & Hin).
      apply list_elem_of_In in Hin. rewrite Forall_forall in Hplain.
      by destruct (Hplain b Hin).
    + apply Forall_forall. intros c Hin%list_elem_of_In%in_map_iff.
      destruct Hin as (b & <- & Hin). apply list_elem_of_In in Hin.
      rewrite Forall_forall in Hplain. by destruct (Hplain b Hin).
Qed.

Lemma read_content_has_no_line_feed_witness :
  read_content sample_source = Ok sample_order.
Proof.
  apply (read_content_has_no_line_feed sample_source).
  apply (bool_decide_unpack _). vm_compute. exact I.
Defined.

Lemma read_lines name_ lines :
  Forall (λ l, Forall plain l.1 ∧ line_end l.2) lines →
  read_content {| name := name_; getvalue := lines_with lines |}
  = Ok (lines_text lines).
Proof.
  intros Hlines. unfold read_content, lines_with, lines_text. simpl.
  rewrite decode_utf8_ascii.
  - cbn [mbind result_bind]. f_equal.
    induction Hlines as [|[l eol] lines [Hl Heol] _ IH]; [done|]. simpl in *.
    rewrite !map_app, <- app_assoc.
    rewrite remove_newlines_plain.
    + f_equal. destruct Heol as [-> | ->]; simpl; exact IH.
    + apply Forall_forall. intros c Hin%list_elem_of_In%in_map_iff.
      destruct Hin as (b & <- & Hin). apply list_elem_of_In in Hin.
      rewrite Forall_forall in Hl. by destruct (Hl b Hin) as (_ & ? & ?).
  - apply Forall_forall. intros c Hin%list_elem_of_In%in_map_iff.
    destruct Hin as (b & <- & Hin).
    apply in_concat in Hin as (l' & Hl' & Hin).
    apply in_map_iff in Hl' as ([l eol] & <- & Hl). simpl in Hin.
    apply list_elem_of_In in Hl. rewrite Forall_forall in Hlines.
    destruct (Hlines _ Hl) as [Hplain Heol]. simpl in *.
    apply in_app_or in Hin as [Hin|Hin].
    + apply list_elem_of_In in Hin. rewrite Forall_forall in Hplain.
      by destruct (Hplain b Hin).
    + destruct Heol as [-> | ->]; simpl in Hin;
        repeat (destruct Hin as [<-|Hin]; [by vm_compute|]); done.
Qed.

(** X15: an upload of plain ASCII lines, each ended by a line feed or by a
    carriage return and a line feed, whichever for each line, is read as
    the lines put end to end: the line breaks are gone and nothing else
    is. *)
Theorem read_content_joins_lines
    (n : str) (lines : list (list byte * list byte)) :
  Forall (λ l, Forall plain l.1 ∧ line_end l.2) lines →
  read_content {| name := n; getvalue := lines_with lines |}
  = Ok (lines_text lines).
Proof. apply read_lines. Qed.

Lemma read_content_joins_lines_witness :
  read_content {| name := lit "order.edi";
                  getvalue := lines_with sample_mixed_lines |}
  = Ok (lines_text sample_mixed_lines).
Proof.
  apply (read_content_joins_lines (lit "order.edi") sample_mixed_lines).
  apply (bool_decide_unpack _). vm_compute. exact I.
Defined.

(** ** The single-file page *)

Lemma all_equal_refl d fields : all_equal d d fields = true.
Proof. by apply all_equal_spec. Qed.

Section SingleFileProperties.

Variable generate_summary_html_report :
  list N → list N → gmap string (list N) → gmap string (list N) →
  gmap string (list N) → gmap string (list N) → bool → bool → bool →
  list N → list N → list N → list N → result (list N).
Variable generate_diff_html :
  list N → list N → list N → list N → result (list N).

(** X16: in single-file mode two uploads of the same plain ASCII lines,
    whatever the line ends of each, are compared as one text against
    itself; when that text parses the comparison returns exactly when its
    three renderer calls return, and whenever it returns, it matches on all
    three checks. *)
Theorem line_ends_do_not_matter
    (n1 n2 : str) (lines1 lines2 : list (list byte * list byte)) :
  Forall (λ l, Forall plain l.1 ∧ line_end l.2) lines1 →
  Forall (λ l, Forall plain l.1 ∧ line_end l.2) lines2 →
  map fst lines1 = map fst lines2 →
  single_file_compare generate_summary_html_report generate_diff_html
    {| name := n1; getvalue := lines_with lines1 |}
    {| name := n2; getvalue := lines_with lines2 |}
  = compare_pair generate_summary_html_report generate_diff_html
      n1 n2 (lines_text lines1) (lines_text lines1)
  ∧ (∀ p,
       parse_edi (lines_text lines1) = Ok p →
       succeeds
         (single_file_compare generate_summary_html_report generate_diff_html
            {| name := n1; getvalue := lines_with lines1 |}
            {| name := n2; getvalue := lines_with lines2 |})
       = succeeds (summary_call generate_summary_html_report n1 n2 p p)
         && succeeds
              (original_diff_call generate_diff_html n1 n2
                 (lines_text lines1) (lines_text lines1))
         && succeeds (masked_diff_call generate_diff_html n1 n2 p p))
  ∧ (∀ c,
       single_file_compare generate_summary_html_report generate_diff_html
         {| name := n1; getvalue := lines_with lines1 |}
         {| name := n2; getvalue := lines_with lines2 |} = Ok c →
       isa_match c = true ∧ gs_match c = true ∧ masked_match c = true).
Proof.
  intros Hlines1 Hlines2 Hsame.
  assert (single_file_compare generate_summary_html_report generate_diff_html
            {| name := n1; getvalue := lines_with lines1 |}
            {| name := n2; getvalue := lines_with lines2 |}
          = compare_pair generate_summary_html_report generate_diff_html
              n1 n2 (lines_text lines1) (lines_text lines1)) as Heq.
  { unfold single_file_compare. rewrite !read_lines by done.
    cbn [mbind result_bind name]. unfold lines_text. by rewrite Hsame. }
  split; [exact Heq|]. rewrite Heq. split.
  { intros p Hp. by apply compare_pair_succeeds. }
  intros c Hc.
  destruct (compare_pair_returns _ _ _ _ _ _ _ Hc) as (p & p' & Hp & Hp').
  assert (p' = p) as -> by congruence.
  destruct (compare_pair_ok _ _ _ _ _ _ p p c Hp Hp Hc) as (Hi & Hg & Hm & _).
  rewrite Hi, Hg, Hm.
  split; [apply all_equal_refl|]. split; [apply all_equal_refl|].
  by apply bool_decide_eq_true.
Qed.

End SingleFileProperties.

Lemma line_ends_do_not_matter_witness :
  ∃ c,
    single_file_compare no_summary_html no_diff_html
      {| name := lit "windows.edi"; getvalue := lines_with sample_windows_lines |}
      {| name := lit "mixed.edi"; getvalue := lines_with sample_mixed_lines |}
    = Ok c
    ∧ isa_match c = true ∧ gs_match c = true ∧ masked_match c = true.
Proof.
  destruct (succeeds_Ok
              (single_file_compare no_summary_html no_diff_html
                 {| name := lit "windows.edi";
                    getvalue := lines_with sample_windows_lines |}
                 {| name := lit "mixed.edi";
                    getvalue := lines_with sample_mixed_lines |}))
    as [c Hc]; [vm_compute; reflexivity|].
  exists c. split; [exact Hc|].
  apply (line_ends_do_not_matter no_summary_html no_diff_html
           (lit "windows.edi") (lit "mixed.edi")
           sample_windows_lines sample_mixed_lines); [| | |exact Hc].
  - apply (bool_decide_unpack _). vm_compute. exact I.
  - apply (bool_decide_unpack _). vm_compute. exact I.
  - vm_compute. reflexivity.
Defined.

(** ** The lookup of targets *)

(** X17: the lookup of targets by name finds the last uploaded target file
    with that file name, and nothing when there is none. *)
Theorem to_files_map_last_wins (to_files : list uploaded_file) (n : str) :
  to_files_map to_files !! n = last (filter (λ f, filename f = n) to_files).
Proof.
  induction to_files as [|f to_files IH] using rev_ind; [done|].
  rewrite to_files_map_snoc, filter_app.
  destruct (decide (filename f = n)) as [Hf|Hf].
  - rewrite filter_cons_True, filter_nil by done.
    rewrite last_snoc. unfold filename in Hf. rewrite <- Hf.
    apply lookup_insert_eq.
  - rewrite filter_cons_False, filter_nil, app_nil_r by done.
    rewrite lookup_insert_ne by done. apply IH.
Qed.

(** ** The outcome of a batch *)

Section BatchOutcome.

Variable generate_summary_html_report :
  list N → list N → gmap string (list N) → gmap string (list N) →
  gmap string (list N) → gmap string (list N) → bool → bool → bool →
  list N → list N → list N → list N → result (list N).
Variable generate_diff_html :
  list N → list N → list N → list N → result (list N).

#[local] Abbreviation compare :=
  (compare_pair generate_summary_html_report generate_diff_html).
#[local] Abbreviation step :=
  (batch_step generate_summary_html_report generate_diff_html).
#[local] Abbreviation batch :=
  (batch_folder_processing generate_summary_html_report generate_diff_html).

Lemma batch_step_skips to_map st f :
  ¬ matched to_map f → step to_map st f = Ok st.
Proof.
  intros Hno. rewrite batch_step_unfold. unfold matched in Hno.
  destruct (contains underscore (filename f)); [|done].
  destruct (to_map !! target_name (filename f)) eqn:Hto; [|done].
  exfalso. apply Hno. split; [done|]. by eexists.
Qed.

Lemma batch_loop_skips to_map from_files st :
  Forall (λ f, ¬ matched to_map f) from_files →
  for_each (step to_map) from_files st = Ok st.
Proof.
  induction 1 as [|f from_files Hf _ IH]; [done|]. simpl.
  rewrite batch_step_skips by done. apply IH.
Qed.

(** X18: the batch does nothing until both uploads are there; with both
    there, it ends with the no-matching-pairs warning exactly when it
    returns and no source file is matched, and then no file content is read;
    a batch that ends with results has at least one result and one report. *)
Theorem batch_outcomes (from_files to_files : list uploaded_file) :
  (batch from_files to_files = Ok Waiting ↔ from_files = [] ∨ to_files = [])
  ∧ (from_files ≠ [] → to_files ≠ [] →
     (batch from_files to_files = Ok NoMatchingPairs ↔
      Forall (λ f, ¬ matched (to_files_map to_files) f) from_files))
  ∧ (∀ st, batch from_files to_files = Ok (Processed st) →
       results st ≠ ∅ ∧ all_report_data st ≠ []
       ∧ Exists (matched (to_files_map to_files)) from_files).
Proof.
  unfold batch_folder_processing.
  split; [|split].
  - destruct from_files as [|f from_files]; [by split; [left|]|].
    destruct to_files as [|t to_files]; [by split; [right|]|].
    cbn [truthy andb]. split; [|by intros [?|?]].
    destruct (for_each _ _ _) as [st|]; [|done]. cbn [mbind result_bind].
    by case_decide.
  - intros Hfrom Hto.
    destruct from_files as [|f from_files]; [done|].
    destruct to_files as [|t to_files]; [done|].
    cbn [truthy andb]. split.
    + destruct (for_each _ _ _) as [st|] eqn:Hloop; [|done].
      cbn [mbind result_bind]. case_decide as Hempty; [|done]. intros _.
      apply batch_loop_invariant in Hloop as (_ & _ & Hkeys).
      apply Forall_forall. intros g Hg Hm.
      destruct (Hkeys g Hg Hm) as [e He]. rewrite Hempty in He.
      by rewrite lookup_empty in He.
    + intros Hno. rewrite batch_loop_skips by done.
      cbn [mbind result_bind]. by rewrite decide_True.
  - intros st.
    destruct (truthy from_files && truthy to_files); [|done].
    destruct (for_each _ _ _) as [st'|] eqn:Hloop; [|done].
    cbn [mbind result_bind]. case_decide as Hempty; [done|].
    intros [= <-]. split; [done|].
    destruct (decide (Exists (matched (to_files_map to_files)) from_files))
      as [Hex|Hno].
    + split; [|done].
      apply batch_loop_invariant in Hloop as (Hreports & _ & _).
      intros Hnil. rewrite Hnil in Hreports. simpl in Hreports.
      symmetry in Hreports. apply map_eq_nil in Hreports.
      apply Exists_exists in Hex as (g & Hg & Hm).
      assert (g ∈ filter (matched (to_files_map to_files)) from_files) as Hin
        by (by apply list_elem_of_filter).
      rewrite Hreports in Hin. by apply elem_of_nil in Hin.
    + exfalso. apply Hempty.
      apply not_Exists_Forall in Hno; [|apply _].
      rewrite batch_loop_skips in Hloop; [by injection Hloop as <-|].
      eapply Forall_impl; [exact Hno|]. by intros x Hx.
Qed.


(** X20: the aggregate list keeps one report for every matched source, in
    the order of the upload, while sources with the same key share one
    entry of the result mapping, that of the last matched source with the
    key; so the mapping never has more entries than the list has
    reports. *)
Theorem batch_last_source_wins
    (to_files from_files : list uploaded_file) (final : batch_state) :
  for_each (step (to_files_map to_files)) from_files batch_init = Ok final →
  length (all_report_data final)
  = length (filter (matched (to_files_map to_files)) from_files)
  ∧ map file1_name (all_report_data final)
    = map filename (filter (matched (to_files_map to_files)) from_files)
  ∧ (∀ key,
       from_name <$> results final !! key
       = filename
         <$> last (filter (λ f, matched (to_files_map to_files) f
                                ∧ pairing_key (filename f) = key) from_files))
  ∧ size (results final) ≤ length (all_report_data final).
Proof.
  intros Hfinal.
  pose proof (batch_loop_invariant _ _ _ _ _ Hfinal) as (Hreports & _ & _).
  split; [|split; [exact Hreports|]].
  { apply (f_equal length) in Hreports. by rewrite !length_map in Hreports. }
  clear Hreports. revert final Hfinal.
  induction from_files as [|f from_files IH] using rev_ind.
  - intros final [= <-]. split; [|done]. intros key. simpl.
    by rewrite lookup_empty.
  - intros final. rewrite for_each_app.
    destruct (for_each _ from_files batch_init) as [st|] eqn:Hloop; [|done].
    cbn [mbind result_bind for_each].
    destruct (step _ st f) as [st'|] eqn:Hstep; [|done].
    cbn [mbind result_bind]. intros [= <-].
    destruct (IH st eq_refl) as [Hkeys Hsize].
    apply batch_step_returns in Hstep as [[Hno ->]|(Hyes & c & -> & _)].
    + split; [|done]. intros key. rewrite filter_app.
      rewrite filter_cons_False, filter_nil, app_nil_r by tauto. apply Hkeys.
    + split.
      * intros key. rewrite filter_app. cbn [results record_pair].
        destruct (decide (pairing_key (filename f) = key)) as [<-|Hne].
        -- rewrite filter_cons_True, filter_nil by done.
           by rewrite last_snoc, lookup_insert_eq.
        -- rewrite filter_cons_False, filter_nil, app_nil_r by tauto.
           rewrite lookup_insert_ne by done. apply Hkeys.
      * cbn [results all_report_data record_pair].
        rewrite length_app, map_size_insert.
        destruct (results st !! pairing_key (filename f)); simpl; lia.
Qed.

End BatchOutcome.

Lemma batch_outcomes_witness :
  batch_folder_processing no_summary_html no_diff_html
    [sample_unpaired; sample_orphan] [sample_target]
  = Ok NoMatchingPairs.
Proof.
  destruct (batch_outcomes no_summary_html no_diff_html
              [sample_unpaired; sample_orphan] [sample_target])
    as (_ & Hnone & _).
  apply Hnone; [discriminate|discriminate|].
  apply (bool_decide_unpack _). vm_compute. exact I.
Defined.


Lemma batch_last_source_wins_witness :
  ∃ final,
    for_each (batch_step no_summary_html no_diff_html
                (to_files_map [sample_target]))
      [sample_source; sample_unpaired; sample_second_source] batch_init
    = Ok final
    ∧ length (all_report_data final) = 2
    ∧ map file1_name (all_report_data final)
      = [lit "order_aaa111.txt"; lit "order_v2_aaa111.edi"]
    ∧ from_name <$> results final !! lit "aaa111"
      = Some (lit "order_v2_aaa111.edi")
    ∧ size (results final) ≤ length (all_report_data final).
Proof.
  destruct (succeeds_Ok
              (for_each (batch_step no_summary_html no_diff_html
                           (to_files_map [sample_target]))
                 [sample_source; sample_unpaired; sample_second_source]
                 batch_init))
    as [final Hloop]; [vm_compute; reflexivity|].
  destruct (batch_last_source_wins no_summary_html no_diff_html
              [sample_target]
              [sample_source; sample_unpaired; sample_second_source]
              final Hloop) as (Hlen & Hnames & Hkeys & Hsize).
  exists final. split; [exact Hloop|].
  split; [rewrite Hlen; vm_compute; reflexivity|].
  split; [rewrite Hnames; vm_compute; reflexivity|].
  split; [|exact Hsize].
  rewrite Hkeys. vm_compute. reflexivity.
Defined.

(** ** A trailing segment terminator *)

Lemma find_app_false {A} (f : A → bool) (l : list A) (x : A) :
  f x = false → List.find f (l ++ [x]) = List.find f l.
Proof.
  intros Hx. induction l as [|y l IH]; simpl; [by rewrite Hx|].
  by destruct (f y).
Qed.

Lemma parse_segment_empty sep st : parse_segment sep st [] = Ok st.
Proof. reflexivity. Qed.

(** X21: a segment terminator added at the end of a document changes
    nothing: the parse returns the same document or raises the same
    error. *)
Theorem trailing_terminator_is_ignored (text : str) :
  parse_edi (text ++ [tilde]) = parse_edi text.
Proof.
  unfold parse_edi, find_isa_segment.
  rewrite (split_app_sep tilde text []). change (split tilde []) with [[]:list N].
  rewrite find_app_false by done.
  destruct (List.find _ _) as [seg|]; [|done]. cbn [mbind result_bind].
  destruct (getitem seg 3) as [d|]; [|done]. cbn [mbind result_bind].
  destruct (if decide (106 ≤ length seg) then getitem seg (-2) else Ok colon)
    as [sub|]; [|done].
  cbn [mbind result_bind]. rewrite for_each_app.
  destruct (for_each _ (split tilde text) parse_init) as [st|]; [|done].
  cbn [mbind result_bind for_each]. by rewrite parse_segment_empty.
Qed.

(** ** Keys and target names *)

Lemma hd_split_prefix sep s : hd [] (split sep s) `prefix_of` s.
Proof.
  induction s as [|c s IH]; simpl; [done|].
  case_decide; [apply prefix_nil|].
  pose proof (split_nonempty sep s).
  destruct (split sep s) as [|w ws]; [done|]. simpl in *.
  by apply prefix_cons.
Qed.

Lemma last_split_free sep s : sep ∉ List.last (split sep s) [].
Proof.
  pose proof (split_free sep s) as Hfree.
  pose proof (split_nonempty sep s) as Hne.
  induction (split sep s) as [|w ws IH]; [done|].
  apply Forall_cons in Hfree as [Hw Hws].
  destruct ws as [|w' ws]; [done|]. by apply IH.
Qed.

Lemma pairing_key_free fname :
  (underscore ∉ pairing_key fname) ∧ (dot ∉ pairing_key fname).
Proof.
  unfold pairing_key. split.
  - intros Hin.
    apply (last_split_free underscore fname).
    destruct (hd_split_prefix dot (List.last (split underscore fname) []))
      as [k Hk].
    rewrite Hk. apply elem_of_app. by left.
  - apply (first_element_free dot).
Qed.

Section BatchNames.

Variable generate_summary_html_report :
  list N → list N → gmap string (list N) → gmap string (list N) →
  gmap string (list N) → gmap string (list N) → bool → bool → bool →
  list N → list N → list N → list N → result (list N).
Variable generate_diff_html :
  list N → list N → list N → list N → result (list N).

(** X22: in the result mapping of a batch every key is free of underscores
    and dots, and every recorded pair has a source name with an underscore
    and a target name that ends with .txt and is the name of an uploaded
    target: a target uploaded under another extension is never used. *)
Theorem batch_names (to_files from_files : list uploaded_file)
    (final : batch_state) (key : str) (e : batch_entry) :
  for_each (batch_step generate_summary_html_report generate_diff_html
              (to_files_map to_files)) from_files batch_init = Ok final →
  results final !! key = Some e →
  (underscore ∉ key) ∧ (dot ∉ key)
  ∧ underscore ∈ from_name e
  ∧ lit ".txt" `suffix_of` to_name e
  ∧ ∃ tf, tf ∈ to_files ∧ filename tf = to_name e.
Proof.
  intros Hloop He.
  apply batch_loop_invariant in Hloop as (_ & Hresults & _).
  destruct (Hresults key e He) as (f & _ & [Hus [tf Htf]] & -> & -> & ->).
  destruct (pairing_key_free (filename f)) as [? ?].
  split; [done|]. split; [done|].
  split; [by apply bool_decide_eq_true in Hus|].
  split.
  - unfold target_name. rewrite !app_assoc. by eexists.
  - apply to_files_map_Some in Htf as [? ?]. by exists tf.
Qed.

End BatchNames.

Lemma batch_names_witness :
  ∃ final e,
    for_each (batch_step no_summary_html no_diff_html
                (to_files_map [sample_target]))
      [sample_source; sample_unpaired] batch_init = Ok final
    ∧ results final !! lit "aaa111" = Some e
    ∧ lit ".txt" `suffix_of` to_name e.
Proof.
  destruct (succeeds_Ok
              (for_each (batch_step no_summary_html no_diff_html
                           (to_files_map [sample_target]))
                 [sample_source; sample_unpaired] batch_init))
    as [final Hloop]; [vm_compute; reflexivity|].
  assert (succeeds
            (final ← for_each (batch_step no_summary_html no_diff_html
                                 (to_files_map [sample_target]))
                       [sample_source; sample_unpaired] batch_init;
             match results final !! lit "aaa111" with
             | Some _ => Ok tt
             | None => Raise IndexError
             end) = true) as Hrun by (vm_compute; reflexivity).
  rewrite Hloop in Hrun. cbn [mbind result_bind] in Hrun.
  destruct (results final !! lit "aaa111") as [e|] eqn:He; [|discriminate].
  exists final, e. split; [exact Hloop|]. split; [exact He|].
  exact (proj1 (proj2 (proj2 (proj2
           (batch_names no_summary_html no_diff_html [sample_target]
              [sample_source; sample_unpaired] final (lit "aaa111") e
              Hloop He))))).
Defined.
